(** * TeleSave: the download core of [main.py]

    A shallow embedding of the media classifier, the naming resolver, the
    scan collector, the per-chat ledger and the download loop, followed by
    the properties of the written specification that concern them. *)

From Stdlib Require Import ZArith String Ascii List Bool Lia.
From Stdlib Require Import Floats.SpecFloat.
From stdpp Require Import gmap strings list sorting pretty.

Local Set Warnings "-register-all,-clear-no-such-hyp".
Local Open Scope Z_scope.

(** ** Telegram objects, as far as the code inspects them *)

(** Attributes of a document; the code only asks whether one of them is a
    [DocumentAttributeVideo]. *)
Inductive DocumentAttribute :=
| DocumentAttributeVideo
| DocumentAttributeFilename (file_name : string)
| DocumentAttributeOther.

(** [doc.attributes]: [None] when the attribute is missing or is [None]. *)
Record Document := { attributes : option (list DocumentAttribute) }.

Inductive MessageMedia :=
| MessageMediaPhoto
| MessageMediaDocument
| MessageMediaOther.

(** [msg.file]: the declared name and the extension, either may be [None]. *)
Record File := { name : option string; ext : option string }.

(** A message. [photo] and [video] record whether the attribute of that
    name is truthy. *)
Record Message := {
  msg_id : Z;
  grouped_id : option Z;
  media : option MessageMedia;
  photo : bool;
  video : bool;
  document : option Document;
  file : option File
}.

(** A resolved chat: every attribute is read with [getattr(chat, _, None)]. *)
Record Chat := {
  chat_id : option Z;
  title : option string;
  username : option string
}.

(** ** Python values *)

(** Truthiness of an optional [str]: [None] and the empty string are falsy. *)
Definition truthy_str (o : option string) : bool :=
  match o with
  | Some (String _ _) => true
  | _ => false
  end.

(** Truthiness of an optional [int]: [None] and [0] are falsy. *)
Definition truthy_int (o : option Z) : bool :=
  match o with
  | Some z => negb (z =? 0)
  | None => false
  end.

(** [str(n)] for an [int]: decimal digits, with a leading minus sign for a
    negative number. *)
Definition str_of_int (n : Z) : string := pretty n.

(** [a or b] on optional strings. *)
Definition str_or (a : option string) (b : string) : string :=
  match a with
  | Some (String c s) => String c s
  | _ => b
  end.

(** ** Media classifier *)

Definition is_MessageMediaPhoto (m : option MessageMedia) : bool :=
  match m with
  | Some MessageMediaPhoto => true
  | _ => false
  end.

Definition is_DocumentAttributeVideo (a : DocumentAttribute) : bool :=
  match a with
  | DocumentAttributeVideo => true
  | _ => false
  end.

(** [bool(msg and (msg.photo or isinstance(msg.media, MessageMediaPhoto)))] *)
Definition is_photo_message (msg : option Message) : bool :=
  match msg with
  | None => false
  | Some m => photo m || is_MessageMediaPhoto (media m)
  end.

(** The [for attr in ...: if isinstance(...): return True] loop, followed by
    the final [return False]. *)
Fixpoint has_video_attribute (attrs : list DocumentAttribute) : bool :=
  match attrs with
  | [] => false
  | attr :: rest =>
      if is_DocumentAttributeVideo attr then true else has_video_attribute rest
  end.

Definition is_video_message (msg : option Message) : bool :=
  match msg with
  | None => false
  | Some m =>
      if video m then true
      else
        match document m with
        | None => false
        | Some doc => has_video_attribute (default [] (attributes doc))
        end
  end.

(** ** Naming resolver *)

(** [build_unique_filename(msg, default_ext)] *)
Definition build_unique_filename (msg : Message) (default_ext : string) : string :=
  let base :=
    match file msg with
    | Some f =>
        if truthy_str (name f) then default "" (name f)
        else "file" +:+ str_or (ext f) default_ext
    | None => "file" +:+ str_or None default_ext
    end in
  "msg_" +:+ str_of_int (msg_id msg) +:+ "_" +:+ base.

(** [folder / name] of [pathlib], for a relative [name]: paths are kept as
    their strings. *)
Definition path_join (folder name : string) : string :=
  folder +:+ "/" +:+ name.

(** ** Scan collector *)

(** The client: [iter_messages] delivers the raw messages of a chat newest
    first (an entry may be falsy); [download_media] answers the [n]-th fetch
    of a pass. *)
Inductive FetchOutcome :=
| FetchOk (data : string)
| FetchFloodWait (seconds : Z)
| FetchError (e : string).

Record Client := {
  iter_messages : Chat -> Z -> list (option Message);
  download_media : nat -> Message -> string -> FetchOutcome
}.

(** The branch on [media_type] in the body of the scan loop. *)
Definition matches_media_type (media_type : string) (msg : Message) : bool :=
  if String.eqb media_type "photos" then is_photo_message (Some msg)
  else if String.eqb media_type "videos" then is_video_message (Some msg)
  else is_photo_message (Some msg) || is_video_message (Some msg).

(** The [async for] loop: [collected] is the list built so far. *)
Fixpoint scan_messages (media_type : string) (delivered : list (option Message))
    (collected : list Message) : list Message :=
  match delivered with
  | [] => collected
  | raw :: rest =>
      match raw with
      | None => scan_messages media_type rest collected
      | Some msg =>
          match media msg with
          | None => scan_messages media_type rest collected
          | Some _ =>
              if matches_media_type media_type msg
              then scan_messages media_type rest (collected ++ [msg])
              else scan_messages media_type rest collected
          end
      end
  end.

Definition collect_media_messages (client : Client) (chat : Chat)
    (media_type : string) (limit : Z) (order : string) : list Message :=
  let collected := scan_messages media_type (iter_messages client chat limit) [] in
  if String.eqb order "oldest" then rev collected else collected.

(** ** JSON documents and the file system *)

(** What [json.load] returns and [json.dump] accepts. An object keeps its
    members in insertion order; [dict_get] reads the first one of a key. *)
Inductive JSON :=
| JNull
| JBool (b : bool)
| JInt (n : Z)
| JFloat (f : spec_float)
| JStr (s : string)
| JArr (items : list JSON)
| JObj (members : list (string * JSON)).

(** The content of a file: a JSON document, identified with the value it
    parses to, or any other bytes. *)
Inductive FileData :=
| JsonText (v : JSON)
| Blob (bytes : string).

(** [json.load(f)]: [None] stands for the [JSONDecodeError]. *)
Definition json_load (content : FileData) : option JSON :=
  match content with
  | JsonText v => Some v
  | Blob _ => None
  end.

(** [json.dump(payload, f)] *)
Definition json_dump (payload : JSON) : FileData := JsonText payload.

Fixpoint dict_get (members : list (string * JSON)) (key : string) (dflt : JSON) : JSON :=
  match members with
  | [] => dflt
  | (k, v) :: rest => if String.eqb k key then v else dict_get rest key dflt
  end.

(** [data.get(key, dflt)]: only a [dict] has the method, on anything else the
    call raises [AttributeError]. *)
Definition py_get (data : JSON) (key : string) (dflt : JSON) : option JSON :=
  match data with
  | JObj members => Some (dict_get members key dflt)
  | _ => None
  end.

(** [for x in ids]: a list yields its items, a [str] its characters, a [dict]
    its keys; anything else raises [TypeError]. *)
Definition py_iter (ids : JSON) : option (list JSON) :=
  match ids with
  | JArr items => Some items
  | JStr s => Some ((fun c => JStr (String c EmptyString)) <$> list_ascii_of_string s)
  | JObj members => Some ((fun kv => JStr (fst kv)) <$> members)
  | _ => None
  end.

(** [int(s)] for a [str] is the builtin's parser, left open here. *)
Class PyBuiltins := { int_of_str : string -> option Z }.

(** [int(f)] for a [float]: truncation toward zero; an infinity raises
    [OverflowError] and a NaN raises [ValueError]. *)
Definition int_of_float (f : spec_float) : option Z :=
  match f with
  | S754_zero _ => Some 0
  | S754_infinity _ => None
  | S754_nan => None
  | S754_finite s m e =>
      let magnitude :=
        match e with
        | Zneg k => Z.pos m / 2 ^ Z.pos k
        | _ => Z.pos m * 2 ^ e
        end in
      Some (if s then - magnitude else magnitude)
  end.

(** [int(x)]; [None] stands for the [TypeError] or [ValueError]. *)
Definition py_int `{!PyBuiltins} (x : JSON) : option Z :=
  match x with
  | JInt n => Some n
  | JBool b => Some (if b then 1 else 0)
  | JFloat f => int_of_float f
  | JStr s => int_of_str s
  | JNull | JArr _ | JObj _ => None
  end.

(** The file system: the regular files by path. Directories are implicit,
    so [mkdir(parents=True, exist_ok=True)] changes nothing here. *)
Abbreviation FileSystem := (gmap string FileData).

(** [os.replace(src, dst)]: one step; [None] stands for the
    [FileNotFoundError] of a missing [src]. *)
Definition os_replace (src dst : string) (fs : FileSystem) : option FileSystem :=
  match fs !! src with
  | Some data => Some (<[dst := data]> (delete src fs))
  | None => None
  end.

(** ** Filesystem ledger *)

Definition per_chat_log_path (chat_folder : string) : string :=
  path_join chat_folder "_downloaded.json".

(** [log_path.with_suffix(".tmp")]: the ledger's file name is the constant
    above, whose suffix [.json] is the part replaced. *)
Definition temp_log_path (chat_folder : string) : string :=
  path_join chat_folder "_downloaded.tmp".

(** The body of the [try] in [load_downloaded_set]; [None] when it raises. *)
Definition read_downloaded_ids `{!PyBuiltins} (content : FileData) : option (gset Z) :=
  data ← json_load content;
  ids ← py_get data "downloaded_ids" (JArr []);
  items ← py_iter ids;
  ns ← mapM py_int items;
  Some (list_to_set ns).

Definition load_downloaded_set `{!PyBuiltins} (fs : FileSystem)
    (chat_folder : string) : gset Z :=
  let log_path := per_chat_log_path chat_folder in
  match fs !! log_path with
  | Some content =>
      match read_downloaded_ids content with
      | Some ids => ids
      | None => ∅
      end
  | None => ∅
  end.

(** [sorted(list(msg_ids))] *)
Definition sorted (l : list Z) : list Z := merge_sort Z.le l.

Definition ledger_payload (msg_ids : gset Z) (chat_meta : list (string * JSON)) : JSON :=
  JObj [ ("chat_id", dict_get chat_meta "id" JNull);
         ("chat_name", dict_get chat_meta "name" JNull);
         ("downloaded_ids", JArr (JInt <$> sorted (elements msg_ids))) ].

(** The file system after [json.dump] into the temporary file and before
    [os.replace]. *)
Definition write_temp_ledger (fs : FileSystem) (chat_folder : string)
    (msg_ids : gset Z) (chat_meta : list (string * JSON)) : FileSystem :=
  <[temp_log_path chat_folder := json_dump (ledger_payload msg_ids chat_meta)]> fs.

Definition save_downloaded_set (fs : FileSystem) (chat_folder : string)
    (msg_ids : gset Z) (chat_meta : list (string * JSON)) : option FileSystem :=
  let log_path := per_chat_log_path chat_folder in
  let temp := temp_log_path chat_folder in
  os_replace temp log_path (write_temp_ledger fs chat_folder msg_ids chat_meta).

(** ** Download orchestrator *)

(** What a pass does to the outside world, in order. *)
Inductive Event :=
| EvAdvance                                (* progress.advance(task) *)
| EvMkdir (path : string)                  (* target_dir.mkdir(...) *)
| EvFetch (m : Z) (path : string)          (* msg.download_media(file=...) *)
| EvPrintRateLimited (seconds : Z)         (* console.print("Rate limited...") *)
| EvSleep (seconds : Z)                    (* asyncio.sleep(e.seconds) *)
| EvPrintError (m : Z) (e : string).       (* console.print("Error on message...") *)

(** The variables of [download_messages] and the world it acts on. *)
Record PassState := {
  downloaded_ids : gset Z;
  skipped : nat;
  completed : nat;
  files : FileSystem;
  fetches : nat;
  trace : list Event
}.

Inductive Exn :=
| FloodWaitError (seconds : Z)
| Exception (e : string).

Inductive Res (A : Type) :=
| Ok (a : A)
| Raise (e : Exn).
Arguments Ok {A} a.
Arguments Raise {A} e.

(** Statements of the loop: they read and change the pass state and either
    finish or raise. What was changed before a raise stays changed. *)
Definition Stmt (A : Type) : Type := PassState -> Res A * PassState.

Definition ret {A} (a : A) : Stmt A := fun st => (Ok a, st).

Definition bind {A B} (m : Stmt A) (k : A -> Stmt B) : Stmt B :=
  fun st =>
    match m st with
    | (Ok a, st') => k a st'
    | (Raise e, st') => (Raise e, st')
    end.

Definition try_except {A} (body : Stmt A) (handler : Exn -> Stmt A) : Stmt A :=
  fun st =>
    match body st with
    | (Ok a, st') => (Ok a, st')
    | (Raise e, st') => handler e st'
    end.

Declare Scope stmt_scope.
Delimit Scope stmt_scope with stmt.
Notation "'do' x <- m ; k" := (bind m (fun x => k))
  (at level 10, x name, m at level 100, k at level 200) : stmt_scope.
Notation "m ;; k" := (bind m (fun _ => k))
  (at level 100, k at level 200, right associativity) : stmt_scope.

Definition emit (ev : Event) : Stmt unit := fun st =>
  (Ok tt, {| downloaded_ids := downloaded_ids st; skipped := skipped st;
             completed := completed st; files := files st;
             fetches := fetches st; trace := trace st ++ [ev] |}).

(** [downloaded_ids.add(m)] *)
Definition add_downloaded (m : Z) : Stmt unit := fun st =>
  (Ok tt, {| downloaded_ids := {[ m ]} ∪ downloaded_ids st; skipped := skipped st;
             completed := completed st; files := files st;
             fetches := fetches st; trace := trace st |}).

(** [skipped += 1] *)
Definition incr_skipped : Stmt unit := fun st =>
  (Ok tt, {| downloaded_ids := downloaded_ids st; skipped := S (skipped st);
             completed := completed st; files := files st;
             fetches := fetches st; trace := trace st |}).

(** [completed += 1] *)
Definition incr_completed : Stmt unit := fun st =>
  (Ok tt, {| downloaded_ids := downloaded_ids st; skipped := skipped st;
             completed := S (completed st); files := files st;
             fetches := fetches st; trace := trace st |}).

(** [msg.id in downloaded_ids] *)
Definition in_downloaded (m : Z) : Stmt bool := fun st =>
  (Ok (bool_decide (m ∈ downloaded_ids st)), st).

(** [out_path.exists()] *)
Definition path_exists (path : string) : Stmt bool := fun st =>
  (Ok (bool_decide (is_Some (files st !! path))), st).

(** [await msg.download_media(file=str(out_path))]: the transport is asked
    once; on success the file is at [path], otherwise the file system is as
    before and the matching exception is raised. *)
Definition fetch_media (client : Client) (msg : Message) (path : string) : Stmt unit :=
  fun st =>
    let st1 := {| downloaded_ids := downloaded_ids st; skipped := skipped st;
                  completed := completed st; files := files st;
                  fetches := S (fetches st);
                  trace := trace st ++ [EvFetch (msg_id msg) path] |} in
    match download_media client (fetches st) msg path with
    | FetchOk data =>
        (Ok tt, {| downloaded_ids := downloaded_ids st1; skipped := skipped st1;
                   completed := completed st1;
                   files := <[path := Blob data]> (files st1);
                   fetches := fetches st1; trace := trace st1 |})
    | FetchFloodWait seconds => (Raise (FloodWaitError seconds), st1)
    | FetchError e => (Raise (Exception e), st1)
    end.

Local Open Scope stmt_scope.

(** The directory of a message: [group_<grouped_id>] under the chat folder
    for an album, the chat folder otherwise. *)
Definition resolve_target_dir (chat_folder : string) (msg : Message) : Stmt string :=
  if truthy_int (grouped_id msg) then
    let target_dir :=
      path_join chat_folder ("group_" +:+ str_of_int (default 0 (grouped_id msg))) in
    emit (EvMkdir target_dir) ;;
    ret target_dir
  else ret chat_folder.

(** The body of the [try]; each [continue] ends it. *)
Definition try_download (client : Client) (chat_folder : string) (msg : Message)
    : Stmt unit :=
  do known <- in_downloaded (msg_id msg);
  if known then
    incr_skipped ;;
    emit EvAdvance
  else
    do target_dir <- resolve_target_dir chat_folder msg;
    let unique_name := build_unique_filename msg ".bin" in
    let out_path := path_join target_dir unique_name in
    do present <- path_exists out_path;
    if present then
      add_downloaded (msg_id msg) ;;
      incr_skipped ;;
      emit EvAdvance
    else
      fetch_media client msg out_path ;;
      add_downloaded (msg_id msg) ;;
      incr_completed ;;
      emit EvAdvance.

(** The two [except] clauses. *)
Definition on_exception (msg : Message) (e : Exn) : Stmt unit :=
  match e with
  | FloodWaitError seconds =>
      emit (EvPrintRateLimited seconds) ;;
      emit (EvSleep seconds)
  | Exception err =>
      emit (EvPrintError (msg_id msg) err) ;;
      emit EvAdvance
  end.

(** One iteration of [for msg in messages]. *)
Definition process_message (client : Client) (chat_folder : string) (msg : Message)
    : Stmt unit :=
  try_except (try_download client chat_folder msg) (on_exception msg).

Fixpoint for_messages (client : Client) (chat_folder : string)
    (messages : list Message) : Stmt unit :=
  match messages with
  | [] => ret tt
  | msg :: rest =>
      process_message client chat_folder msg ;;
      for_messages client chat_folder rest
  end.

(** [meta] as built at the top of [download_messages]. *)
Definition chat_meta_of (chat : Chat) : list (string * JSON) :=
  let shown :=
    if truthy_str (title chat) then default "" (title chat)
    else if truthy_str (username chat) then default "" (username chat)
    else match chat_id chat with
         | Some n => str_of_int n
         | None => ""
         end in
  [ ("id", match chat_id chat with Some n => JInt n | None => JNull end);
    ("name", JStr shown) ].

(** The state in which the loop starts. *)
Definition initial_state `{!PyBuiltins} (fs : FileSystem) (chat_folder : string)
    : PassState :=
  {| downloaded_ids := load_downloaded_set fs chat_folder;
     skipped := 0; completed := 0; files := fs; fetches := 0; trace := [] |}.

(** [save_downloaded_set(chat_folder, downloaded_ids, meta)] as the last
    statement of the pass. *)
Definition save_ledger (chat_folder : string) (chat_meta : list (string * JSON))
    : Stmt unit := fun st =>
  match save_downloaded_set (files st) chat_folder (downloaded_ids st) chat_meta with
  | Some fs' =>
      (Ok tt, {| downloaded_ids := downloaded_ids st; skipped := skipped st;
                 completed := completed st; files := fs';
                 fetches := fetches st; trace := trace st |})
  | None => (Raise (Exception "FileNotFoundError"), st)
  end.

(** [download_messages(client, chat, messages, chat_folder)] run on the file
    system [fs]: what it returns, and the state it ends in. *)
Definition download_messages `{!PyBuiltins} (client : Client) (chat : Chat)
    (messages : list Message) (chat_folder : string) (fs : FileSystem)
    : Res (nat * nat) * PassState :=
  (for_messages client chat_folder messages ;;
   save_ledger chat_folder (chat_meta_of chat) ;;
   fun st => (Ok (completed st, skipped st), st))
    (initial_state fs chat_folder).

(** ** Notions the statements below are phrased in *)

(** The directory, the [mkdir] call and the destination path that
    [try_download] computes for a message. *)
Definition target_dir_of (chat_folder : string) (msg : Message) : string :=
  if truthy_int (grouped_id msg)
  then path_join chat_folder ("group_" +:+ str_of_int (default 0 (grouped_id msg)))
  else chat_folder.

Definition mkdir_events (chat_folder : string) (msg : Message) : list Event :=
  if truthy_int (grouped_id msg) then [EvMkdir (target_dir_of chat_folder msg)] else [].

Definition out_path_of (chat_folder : string) (msg : Message) : string :=
  path_join (target_dir_of chat_folder msg) (build_unique_filename msg ".bin").

(** The state after the loop has gone through [messages]. *)
Definition run (client : Client) (chat_folder : string) (messages : list Message)
    (st : PassState) : PassState :=
  snd (for_messages client chat_folder messages st).

(** The state a pass ends in, given the state [st] after the loop. *)
Definition saved_state (chat : Chat) (chat_folder : string) (st : PassState)
    : PassState :=
  {| downloaded_ids := downloaded_ids st; skipped := skipped st;
     completed := completed st;
     files := <[per_chat_log_path chat_folder :=
                  JsonText (ledger_payload (downloaded_ids st) (chat_meta_of chat))]>
                (delete (temp_log_path chat_folder) (files st));
     fetches := fetches st; trace := trace st |}.

(** Does every character of [s] satisfy [p]? *)
Fixpoint all_chars (p : ascii -> bool) (s : string) : bool :=
  match s with
  | EmptyString => true
  | String c rest => p c && all_chars p rest
  end.

Definition is_digit_or_minus (c : ascii) : bool :=
  match Ascii.is_nat c with
  | Some _ => true
  | None => Ascii.eqb c "-"
  end.

(** The delivered messages that carry media and pass [wanted], in the order
    of delivery. *)
Definition carries_media (msg : Message) : bool :=
  match media msg with
  | Some _ => true
  | None => false
  end.

Definition matching_messages (wanted : Message -> bool)
    (delivered : list (option Message)) : list Message :=
  List.filter (fun msg => carries_media msg && wanted msg) (omap id delivered).

(** The filter of the media type ["both"]: a photo or a video. *)
Definition photo_or_video (msg : Message) : bool :=
  is_photo_message (Some msg) || is_video_message (Some msg).

(** The Naming Resolver in the words of the specification: the declared
    filename if present, else [file<ext>] with the attachment's extension or
    the fallback extension, prefixed with [msg_<id>_]. *)
Definition declared_filename (msg : Message) : option string :=
  match file msg with
  | Some f => match name f with
              | Some (String c s) => Some (String c s)
              | _ => None
              end
  | None => None
  end.

Definition attachment_ext (msg : Message) : option string :=
  match file msg with
  | Some f => match ext f with
              | Some (String c s) => Some (String c s)
              | _ => None
              end
  | None => None
  end.

Definition resolved_filename (msg : Message) (fallback_ext : string) : string :=
  "msg_" +:+ str_of_int (msg_id msg) +:+ "_" +:+
  match declared_filename msg with
  | Some declared => declared
  | None => "file" +:+ default fallback_ext (attachment_ext msg)
  end.

(** ** Sample data *)

(** A photo message with the given id, album and declared file name. *)
Definition photo_message (n : Z) (album : option Z) (declared : option string)
    : Message :=
  {| msg_id := n; grouped_id := album; media := Some MessageMediaPhoto;
     photo := true; video := false; document := None;
     file := Some {| name := declared; ext := Some ".jpg" |} |}.

(** A client that delivers [delivered] and answers the [n]-th fetch of a
    pass with [answer n]. *)
Definition scripted_client (delivered : list (option Message))
    (answer : nat -> FetchOutcome) : Client :=
  {| iter_messages := fun _ _ => delivered;
     download_media := fun n _ _ => answer n |}.

Definition sample_chat : Chat :=
  {| chat_id := Some 42; title := Some "Holiday"; username := None |}.

(** An [int] parser that accepts nothing, for the samples. *)
Definition strict_builtins : PyBuiltins := {| int_of_str := fun _ => None |}.

Definition sample_folder : string := "downloads/Holiday".

(** A chat folder whose ledger lists message 7. *)
Definition fs_with_ledger : FileSystem :=
  {[ "downloads/Holiday/_downloaded.json" :=
       JsonText (JObj [ ("chat_id", JInt 42); ("chat_name", JStr "Holiday");
                        ("downloaded_ids", JArr [JInt 7]) ]) ]}.

(** A chat folder without a ledger that still holds the file of message 7. *)
Definition fs_with_file : FileSystem :=
  {[ "downloads/Holiday/msg_7_file.jpg" := Blob "old bytes" ]}.

Definition always_ok (n : nat) : FetchOutcome := FetchOk "bytes".

Definition always_failing (n : nat) : FetchOutcome := FetchError "timeout".

(** ** Folder names *)

(** [str.isspace], which is also the regex class [\s], for the characters
    below 256: tab to carriage return, the four separators 28 to 31, the
    space, NEL and the no-break space. *)
Definition py_isspace (c : ascii) : bool :=
  let n := nat_of_ascii c in
  ((9 <=? n) && (n <=? 13) || (28 <=? n) && (n <=? 32)
   || (n =? 133) || (n =? 160))%nat.

(** The class of the first regex of [sanitize_for_fs]: backslash, slash,
    colon, star, question mark, double quote (34), the angle brackets, the
    bar, line feed (10), carriage return (13) and tab (9). *)
Definition forbidden_chars : list ascii :=
  ["\"; "/"; ":"; "*"; "?"; "034"; "<"; ">"; "|"; "010"; "013"; "009"]%char.

Definition is_forbidden (c : ascii) : bool :=
  existsb (Ascii.eqb c) forbidden_chars.

(** [re.sub(r"[...]", "_", name)] *)
Fixpoint replace_forbidden (s : string) : string :=
  match s with
  | EmptyString => EmptyString
  | String c rest =>
      String (if is_forbidden c then "_"%char else c) (replace_forbidden rest)
  end.

(** [re.sub(r"\s+", " ", name)]: every maximal run of whitespace becomes one
    space; [in_run] tells that the previous character was whitespace. *)
Fixpoint collapse_whitespace (in_run : bool) (s : string) : string :=
  match s with
  | EmptyString => EmptyString
  | String c rest =>
      if py_isspace c then
        if in_run then collapse_whitespace true rest
        else String " " (collapse_whitespace true rest)
      else String c (collapse_whitespace false rest)
  end.

Fixpoint lstrip (s : string) : string :=
  match s with
  | EmptyString => EmptyString
  | String c rest => if py_isspace c then lstrip rest else s
  end.

Fixpoint rstrip (s : string) : string :=
  match s with
  | EmptyString => EmptyString
  | String c rest =>
      match rstrip rest with
      | EmptyString => if py_isspace c then EmptyString else String c EmptyString
      | kept => String c kept
      end
  end.

(** [s.strip()] *)
Definition strip (s : string) : string := rstrip (lstrip s).

(** [s[:n]] *)
Fixpoint str_take (n : nat) (s : string) : string :=
  match n, s with
  | S n', String c rest => String c (str_take n' rest)
  | _, _ => EmptyString
  end.

Definition sanitize_for_fs (name : string) : string :=
  match name with
  | EmptyString => "chat"
  | _ => str_take 80 (strip (collapse_whitespace false (replace_forbidden name)))
  end.

Definition BASE_DOWNLOADS : string := "downloads".

(** [folder / name] of [pathlib] for a name without a separator: an empty
    name and the name [.] add nothing. *)
Definition path_div (folder name : string) : string :=
  if String.eqb name "" || String.eqb name "." then folder
  else path_join folder name.

(** [choose_chat_folder(chat)]; [None] stands for the [AttributeError] of
    [chat.id] on a chat without that attribute. The [mkdir] at its end
    changes nothing in a file system of regular files. *)
Definition choose_chat_folder (chat : Chat) : option string :=
  label ←
    (if truthy_str (username chat) then Some ("@" +:+ default "" (username chat))
     else if truthy_str (title chat) then Some (default "" (title chat))
     else match chat_id chat with
          | Some n => Some ("id_" +:+ str_of_int n)
          | None => None
          end);
  Some (path_div BASE_DOWNLOADS (sanitize_for_fs label)).

(** ** Credentials file *)

Definition CONFIG_FILE : string := "config.json".

(** [load_config()]; [None] stands for the exception [json.load] raises,
    which nothing catches. *)
Definition load_config (fs : FileSystem) : option JSON :=
  match fs !! CONFIG_FILE with
  | Some content => json_load content
  | None => Some (JObj [])
  end.

Definition save_config (api_id : Z) (api_hash : string) (fs : FileSystem)
    : FileSystem :=
  <[CONFIG_FILE := json_dump (JObj [ ("api_id", JInt api_id);
                                     ("api_hash", JStr api_hash) ])]> fs.

(** Truthiness of a loaded JSON value. *)
Definition py_truthy (v : JSON) : bool :=
  match v with
  | JNull => false
  | JBool b => b
  | JInt n => negb (n =? 0)
  | JFloat (S754_zero _) => false
  | JFloat _ => true
  | JStr s => negb (String.eqb s "")
  | JArr items => negb (bool_decide (items = []))
  | JObj members => match members with [] => false | _ => true end
  end.

(** [cfg[key]] for a [str] key: the member of a [dict]; [None] stands for the
    [KeyError] of a missing key and the [TypeError] of any other value. *)
Fixpoint dict_getitem (members : list (string * JSON)) (key : string) : option JSON :=
  match members with
  | [] => None
  | (k, v) :: rest => if String.eqb k key then Some v else dict_getitem rest key
  end.

Definition py_getitem (v : JSON) (key : string) : option JSON :=
  match v with
  | JObj members => dict_getitem members key
  | _ => None
  end.

(** The credentials part of [main]: [setup] is the id, already read as an
    integer, and the hash the operator types when asked for first-time
    credentials, [update] what they type after confirming an update ([None]
    when they decline). The result is the pair handed to [TelegramClient]
    and the file system left behind. *)
Definition main_credentials (fs : FileSystem) (setup : Z * string)
    (update : option (Z * string)) : option ((JSON * JSON) * FileSystem) :=
  cfg ← load_config fs;
  let '(cfg1, fs1) :=
    if py_truthy cfg then (cfg, fs)
    else (JObj [ ("api_id", JInt setup.1); ("api_hash", JStr setup.2) ],
          save_config setup.1 setup.2 fs) in
  let '(cfg2, fs2) :=
    match update with
    | Some (api_id, api_hash) =>
        (JObj [ ("api_id", JInt api_id); ("api_hash", JStr api_hash) ],
         save_config api_id api_hash fs1)
    | None => (cfg1, fs1)
    end in
  api_id ← py_getitem cfg2 "api_id";
  api_hash ← py_getitem cfg2 "api_hash";
  Some ((api_id, api_hash), fs2).

(** ** Chat queries *)

(** [s] without the leading [prefix], when it starts with it. *)
Fixpoint strip_prefix (prefix s : string) : option string :=
  match prefix with
  | EmptyString => Some s
  | String a prefix' =>
      match s with
      | String b s' => if Ascii.eqb a b then strip_prefix prefix' s' else None
      | EmptyString => None
      end
  end.

(** [needle in hay] *)
Fixpoint str_contains (needle hay : string) : bool :=
  match strip_prefix needle hay with
  | Some _ => true
  | None =>
      match hay with
      | EmptyString => false
      | String _ rest => str_contains needle rest
      end
  end.

(** [s.split(sep, 1)] at the leftmost [sep]: the text before it and the text
    after it; [None] when [s] holds no [sep], where Python returns the
    one-element list. *)
Fixpoint split_once (sep s : string) : option (string * string) :=
  match strip_prefix sep s with
  | Some after => Some (EmptyString, after)
  | None =>
      match s with
      | EmptyString => None
      | String c rest =>
          match split_once sep rest with
          | Some (before, after) => Some (String c before, after)
          | None => None
          end
      end
  end.

(** What [main] does with the chat query: join by invite hash, or look the
    query up as it is. *)
Inductive ChatQuery :=
| ImportChatInvite (invite_hash : string)
| GetEntity (query : string).

(** The branch on the query in [main]; [None] stands for the [IndexError] of
    [split(...)[1]]. *)
Definition parse_chat_query (chat_query : string) : option ChatQuery :=
  if str_contains "t.me/+" chat_query then
    parts ← split_once "+" chat_query;
    Some (ImportChatInvite parts.2)
  else if str_contains "t.me/joinchat/" chat_query then
    parts ← split_once "joinchat/" chat_query;
    Some (ImportChatInvite parts.2)
  else Some (GetEntity chat_query).

(** ** Counting in a trace *)

Definition is_advance (ev : Event) : bool :=
  match ev with EvAdvance => true | _ => false end.

Definition is_fetch (ev : Event) : bool :=
  match ev with EvFetch _ _ => true | _ => false end.

Definition is_sleep (ev : Event) : bool :=
  match ev with EvSleep _ => true | _ => false end.

Definition is_error_print (ev : Event) : bool :=
  match ev with EvPrintError _ _ => true | _ => false end.

Definition count_events (p : Event -> bool) (tr : list Event) : nat :=
  length (List.filter p tr).

(** Does the string contain the character? *)
Fixpoint has_char (c : ascii) (s : string) : bool :=
  match s with
  | EmptyString => false
  | String a rest => Ascii.eqb a c || has_char c rest
  end.

(** ** Shapes of names *)

Definition starts_with_space (s : string) : bool :=
  match s with
  | String c _ => py_isspace c
  | EmptyString => false
  end.

Fixpoint ends_with_space (s : string) : bool :=
  match s with
  | EmptyString => false
  | String c EmptyString => py_isspace c
  | String _ rest => ends_with_space rest
  end.

(** Whitespace occurs only as plain spaces, one at a time; [after_space]
    tells that the character before [s] was whitespace. *)
Fixpoint single_spaced (after_space : bool) (s : string) : bool :=
  match s with
  | EmptyString => true
  | String c rest =>
      if py_isspace c
      then Ascii.eqb c " " && negb after_space && single_spaced true rest
      else single_spaced false rest
  end.

Definition not_forbidden (c : ascii) : bool := negb (is_forbidden c).

(** Neither whitespace nor a character the sanitizer replaces. *)
Definition is_plain (c : ascii) : bool :=
  negb (py_isspace c) && negb (is_forbidden c).

(** Whitespace that the sanitizer does not replace by an underscore. *)
Definition is_blank (c : ascii) : bool :=
  py_isspace c && negb (is_forbidden c).

(** ** More sample data *)




(** Chats known by id only, by username, and by a title of two spaces. *)
Definition chat_by_id (n : Z) : Chat :=
  {| chat_id := Some n; title := None; username := None |}.

Definition chat_by_username (u : string) : Chat :=
  {| chat_id := Some 1; title := Some "Some title"; username := Some u |}.

Definition chat_with_blank_title : Chat :=
  {| chat_id := Some 1; title := Some "  "; username := None |}.

(** A configuration file that lacks the hash. *)
Definition fs_with_partial_config : FileSystem :=
  {[ "config.json" := JsonText (JObj [ ("api_id", JInt 1) ]) ]}.

(** * Properties *)

(** ** Strings and decimal numerals *)

Lemma pretty_N_char_digit x : is_digit_or_minus (pretty_N_char x) = true.
Proof. unfold pretty_N_char. by repeat case_match. Qed.

Lemma pretty_N_go_digits x : forall s,
  all_chars is_digit_or_minus s = true ->
  all_chars is_digit_or_minus (pretty_N_go x s) = true.
Proof.
  induction (N.lt_wf_0 x) as [x _ IH]; intros s Hs.
  destruct (decide (x = 0)%N) as [->|Hx].
  - by rewrite pretty_N_go_0.
  - rewrite pretty_N_go_step by lia.
    apply IH; [apply N.div_lt; lia|].
    simpl. by rewrite pretty_N_char_digit, Hs.
Qed.

Lemma pretty_N_digits (x : N) : all_chars is_digit_or_minus (pretty x) = true.
Proof.
  unfold pretty, pretty_N. case_decide; [done|].
  by apply pretty_N_go_digits.
Qed.

Lemma str_of_int_digits n : all_chars is_digit_or_minus (str_of_int n) = true.
Proof.
  unfold str_of_int, pretty, pretty_Z. destruct n as [|p|p]; [done|..].
  - apply pretty_N_digits.
  - change ("-" +:+ pretty p) with (String "-" (pretty (N.pos p))).
    simpl. apply pretty_N_digits.
Qed.

(** A string is cut in one way only at a character it does not contain
    before the cut. *)
Lemma cut_at_separator (p : ascii -> bool) (c : ascii) s1 s2 r1 r2 :
  p c = false ->
  all_chars p s1 = true -> all_chars p s2 = true ->
  s1 +:+ String c r1 = s2 +:+ String c r2 -> s1 = s2 /\ r1 = r2.
Proof.
  intros Hc. revert s2.
  induction s1 as [|a s1 IH]; intros [|b s2]; simpl; intros H1 H2 Heq.
  - by inversion Heq.
  - inversion Heq; subst. apply andb_true_iff in H2 as [H2 _]. congruence.
  - inversion Heq; subst. apply andb_true_iff in H1 as [H1 _]. congruence.
  - inversion Heq; subst.
    apply andb_true_iff in H1 as [_ H1]. apply andb_true_iff in H2 as [_ H2].
    destruct (IH s2 H1 H2) as [-> ->]; done.
Qed.

Lemma str_of_int_cut (c : ascii) n1 n2 r1 r2 :
  is_digit_or_minus c = false ->
  str_of_int n1 +:+ String c r1 = str_of_int n2 +:+ String c r2 ->
  n1 = n2 /\ r1 = r2.
Proof.
  intros Hc Heq.
  destruct (cut_at_separator is_digit_or_minus c _ _ _ _ Hc
              (str_of_int_digits n1) (str_of_int_digits n2) Heq) as [Hn Hr].
  split; [|done]. by apply (inj pretty).
Qed.

Lemma append_cons (x : ascii) (a b : string) :
  String x a +:+ b = String x (a +:+ b).
Proof. reflexivity. Qed.

Lemma append_assoc (a b c : string) : (a +:+ b) +:+ c = a +:+ (b +:+ c).
Proof.
  induction a as [|x a IH]; [done|].
  by rewrite !append_cons, IH.
Qed.

(** ** Naming resolver *)

Lemma build_unique_filename_resolved msg dflt :
  build_unique_filename msg dflt = resolved_filename msg dflt.
Proof.
  unfold build_unique_filename, resolved_filename, declared_filename,
    attachment_ext, truthy_str, str_or.
  destruct (file msg) as [[[[|c s]|] [[|c' s']|]]|]; reflexivity.
Qed.

Lemma build_unique_filename_inj m1 m2 d1 d2 :
  build_unique_filename m1 d1 = build_unique_filename m2 d2 ->
  msg_id m1 = msg_id m2.
Proof.
  unfold build_unique_filename.
  generalize (match file m1 with
              | Some f => if truthy_str (name f) then default "" (name f)
                          else "file" +:+ str_or (ext f) d1
              | None => "file" +:+ str_or None d1
              end) as b1.
  generalize (match file m2 with
              | Some f => if truthy_str (name f) then default "" (name f)
                          else "file" +:+ str_or (ext f) d2
              | None => "file" +:+ str_or None d2
              end) as b2.
  intros b2 b1 Heq. simpl in Heq.
  injection Heq as Heq.
  by apply (str_of_int_cut "_") in Heq as [? _].
Qed.

(** C7: two messages with distinct ids never get the same file name, whatever
    their attachments declare, and the name is the one the specification
    describes: [msg_<id>_] followed by the declared filename if present, else
    by [file<ext>] with the attachment's extension or the fallback. *)
Theorem unique_filename_per_message m1 m2 fallback_ext :
  msg_id m1 <> msg_id m2 ->
  build_unique_filename m1 fallback_ext <> build_unique_filename m2 fallback_ext
  /\ build_unique_filename m1 fallback_ext = resolved_filename m1 fallback_ext
  /\ build_unique_filename m2 fallback_ext = resolved_filename m2 fallback_ext.
Proof.
  intros Hid. split; [|split].
  - intros Heq. by apply build_unique_filename_inj in Heq.
  - apply build_unique_filename_resolved.
  - apply build_unique_filename_resolved.
Qed.

(** ** Destination paths *)

Lemma path_join_inj folder n1 n2 :
  path_join folder n1 = path_join folder n2 -> n1 = n2.
Proof.
  unfold path_join. intros Heq.
  apply (inj (String.app folder)) in Heq. by injection Heq.
Qed.

Lemma path_join_nested folder sub n :
  path_join (path_join folder sub) n = path_join folder (sub +:+ "/" +:+ n).
Proof. unfold path_join. by rewrite !append_assoc. Qed.

Lemma out_path_of_unfold chat_folder msg :
  out_path_of chat_folder msg =
  path_join chat_folder
    (if truthy_int (grouped_id msg)
     then "group_" +:+ str_of_int (default 0 (grouped_id msg)) +:+ "/" +:+
          build_unique_filename msg ".bin"
     else build_unique_filename msg ".bin").
Proof.
  unfold out_path_of, target_dir_of.
  destruct (truthy_int (grouped_id msg)); [|done].
  by rewrite path_join_nested, !append_assoc.
Qed.

Lemma build_unique_filename_head msg dflt :
  exists rest, build_unique_filename msg dflt = String "m" rest.
Proof. unfold build_unique_filename. eexists. reflexivity. Qed.

(** Within a chat folder, the destination path determines the message id. *)
Lemma out_path_of_inj chat_folder m1 m2 :
  out_path_of chat_folder m1 = out_path_of chat_folder m2 ->
  msg_id m1 = msg_id m2.
Proof.
  rewrite !out_path_of_unfold. intros Heq. apply path_join_inj in Heq.
  destruct (build_unique_filename_head m1 ".bin") as [r1 Hr1].
  destruct (build_unique_filename_head m2 ".bin") as [r2 Hr2].
  destruct (truthy_int (grouped_id m1)), (truthy_int (grouped_id m2)).
  - injection Heq as Heq.
    apply (str_of_int_cut "/") in Heq as [_ Heq]; [|done].
    by apply build_unique_filename_inj in Heq.
  - rewrite Hr2 in Heq. discriminate Heq.
  - rewrite Hr1 in Heq. discriminate Heq.
  - by apply build_unique_filename_inj in Heq.
Qed.

Lemma out_path_of_not_ledger chat_folder msg :
  out_path_of chat_folder msg <> per_chat_log_path chat_folder
  /\ out_path_of chat_folder msg <> temp_log_path chat_folder.
Proof.
  rewrite out_path_of_unfold. unfold per_chat_log_path, temp_log_path.
  destruct (build_unique_filename_head msg ".bin") as [r Hr].
  split; intros Heq; apply path_join_inj in Heq;
    destruct (truthy_int (grouped_id msg)); try discriminate Heq;
    rewrite Hr in Heq; discriminate Heq.
Qed.

Lemma temp_log_path_fresh chat_folder :
  temp_log_path chat_folder <> per_chat_log_path chat_folder.
Proof.
  unfold temp_log_path, per_chat_log_path. intros Heq.
  apply path_join_inj in Heq. discriminate Heq.
Qed.

(** ** Scan collector *)

Lemma scan_messages_matching media_type delivered : forall collected,
  scan_messages media_type delivered collected =
  collected ++ matching_messages (matches_media_type media_type) delivered.
Proof.
  unfold matching_messages, carries_media.
  induction delivered as [|[msg|] rest IH]; intros collected; simpl.
  - by rewrite app_nil_r.
  - destruct (media msg); simpl; [|apply IH].
    destruct (matches_media_type media_type msg); [|apply IH].
    by rewrite IH, <- app_assoc.
  - apply IH.
Qed.

Lemma collect_media_messages_matching client chat media_type limit order :
  collect_media_messages client chat media_type limit order =
  let kept := matching_messages (matches_media_type media_type)
                (iter_messages client chat limit) in
  if decide (order = "oldest") then rev kept else kept.
Proof.
  unfold collect_media_messages. rewrite scan_messages_matching. simpl.
  destruct (String.eqb_spec order "oldest"); case_decide; done.
Qed.

Lemma fmap_rev_ids (l : list Message) :
  msg_id <$> rev l = rev (msg_id <$> l).
Proof.
  induction l as [|msg l IH]; [done|].
  simpl. by rewrite fmap_app, IH.
Qed.

Lemma filter_ids_sorted (R : relation Z) (f : Message -> bool) l :
  StronglySorted R (msg_id <$> l) ->
  StronglySorted R (msg_id <$> List.filter f l).
Proof.
  induction l as [|msg l IH]; [intros _; constructor|].
  rewrite fmap_cons, StronglySorted_cons. intros [Hall Hrest]. simpl.
  destruct (f msg); [|by apply IH].
  rewrite fmap_cons, StronglySorted_cons. split; [|by apply IH].
  rewrite Forall_forall in Hall |- *. intros n Hn. apply Hall.
  apply list_elem_of_fmap in Hn as (m & -> & Hm).
  apply list_elem_of_fmap_2.
  apply list_elem_of_In in Hm. apply filter_In in Hm as [Hm _].
  by apply list_elem_of_In.
Qed.

Lemma rev_descending_ascending (l : list Z) :
  StronglySorted Z.gt l -> StronglySorted Z.lt (rev l).
Proof.
  induction l as [|n l IH]; [intros _; constructor|].
  rewrite StronglySorted_cons. intros [Hall Hrest]. simpl.
  apply StronglySorted_app_2; [|by apply IH|repeat constructor].
  intros x1 x2 Hx1 Hx2. apply list_elem_of_singleton in Hx2. subst x2.
  rewrite Forall_forall in Hall.
  apply list_elem_of_In, in_rev, list_elem_of_In in Hx1.
  specialize (Hall x1 Hx1). lia.
Qed.

(** C5: with [order = oldest] the collector returns the matching messages
    in the reverse of the order of delivery, with any other order it keeps
    the order of delivery. When the delivery is newest first (descending
    ids), [oldest] therefore gives ascending ids; messages 5, 3, 1 delivered
    newest first come out as 1, 3, 5 for [oldest] and as 5, 3, 1 for
    [newest]. *)
Theorem collector_order client chat media_type limit order :
  let kept := matching_messages (matches_media_type media_type)
                (iter_messages client chat limit) in
  let delivery := [Some (photo_message 5 None None);
                   Some (photo_message 3 None None);
                   Some (photo_message 1 None None)] in
  let sample := scripted_client delivery (fun _ => FetchError "unused") in
  collect_media_messages client chat media_type limit order =
    (if decide (order = "oldest") then rev kept else kept)
  /\ (StronglySorted Z.gt (msg_id <$> omap id (iter_messages client chat limit)) ->
      StronglySorted Z.lt
        (msg_id <$> collect_media_messages client chat media_type limit "oldest"))
  /\ msg_id <$> collect_media_messages sample chat "both" 500 "oldest" = [1; 3; 5]
  /\ msg_id <$> collect_media_messages sample chat "both" 500 "newest" = [5; 3; 1].
Proof.
  split; [apply collect_media_messages_matching|].
  split; [|split; reflexivity].
  intros Hnewest_first. rewrite collect_media_messages_matching. simpl.
  rewrite fmap_rev_ids. apply rev_descending_ascending.
  by apply filter_ids_sorted.
Qed.

Lemma matches_media_type_other media_type msg :
  media_type <> "photos" -> media_type <> "videos" ->
  matches_media_type media_type msg = photo_or_video msg.
Proof.
  intros Hp Hv. unfold matches_media_type, photo_or_video.
  destruct (String.eqb_spec media_type "photos"); [done|].
  destruct (String.eqb_spec media_type "videos"); done.
Qed.

Lemma elem_of_matching_messages wanted delivered msg :
  msg ∈ matching_messages wanted delivered <->
  Some msg ∈ delivered /\ is_Some (media msg) /\ wanted msg = true.
Proof.
  unfold matching_messages, carries_media.
  rewrite list_elem_of_In, filter_In, <- list_elem_of_In, list_elem_of_omap.
  rewrite andb_true_iff. split.
  - intros [[raw [Hin Hraw]] [Hmedia Hwanted]]. simpl in Hraw. subst raw.
    destruct (media msg); [eauto|done].
  - intros [Hin [[m Hm] Hwanted]]. rewrite Hm. eauto.
Qed.

(** C10: any media type other than ["photos"] and ["videos"] selects like
    ["both"]: the collector keeps exactly the delivered messages that carry
    media and classify as photo or video. *)
Theorem other_media_type_means_both client chat media_type limit order :
  media_type <> "photos" -> media_type <> "videos" ->
  collect_media_messages client chat media_type limit order =
    collect_media_messages client chat "both" limit order
  /\ forall msg,
       msg ∈ collect_media_messages client chat media_type limit order <->
       Some msg ∈ iter_messages client chat limit
       /\ is_Some (media msg)
       /\ (is_photo_message (Some msg) = true \/ is_video_message (Some msg) = true).
Proof.
  intros Hp Hv.
  assert (Hsame : matching_messages (matches_media_type media_type)
                    (iter_messages client chat limit) =
                  matching_messages photo_or_video (iter_messages client chat limit)).
  { unfold matching_messages. apply filter_ext. intros msg.
    by rewrite matches_media_type_other. }
  split.
  - rewrite !collect_media_messages_matching. simpl. rewrite Hsame.
    repeat f_equal.
  - intros msg. rewrite collect_media_messages_matching. simpl. rewrite Hsame.
    assert (Hrev : msg ∈ rev (matching_messages photo_or_video
                                (iter_messages client chat limit)) <->
                   msg ∈ matching_messages photo_or_video
                           (iter_messages client chat limit)).
    { by rewrite !list_elem_of_In, <- in_rev. }
    case_decide; rewrite ?Hrev, elem_of_matching_messages;
      unfold photo_or_video; by rewrite orb_true_iff.
Qed.

(** ** Filesystem ledger *)

Lemma StronglySorted_le_NoDup (l : list Z) :
  StronglySorted Z.le l -> NoDup l -> StronglySorted Z.lt l.
Proof.
  induction 1 as [|x l Hl IH Hx]; intros Hnd; [constructor|].
  apply NoDup_cons in Hnd as [Hx_notin Hnd].
  constructor; [by apply IH|].
  rewrite Forall_forall in Hx |- *. intros y Hy.
  assert (x <> y) by (intros ->; by apply Hx_notin).
  specialize (Hx y Hy). lia.
Qed.

Lemma sorted_elements (ids : gset Z) :
  StronglySorted Z.lt (sorted (elements ids))
  /\ forall n, n ∈ sorted (elements ids) <-> n ∈ ids.
Proof.
  unfold sorted. split.
  - apply StronglySorted_le_NoDup.
    + apply Sorted_StronglySorted; [apply _|]. apply Sorted_merge_sort, _.
    + rewrite merge_sort_Permutation. apply NoDup_elements.
  - intros n. by rewrite merge_sort_Permutation, elem_of_elements.
Qed.

Lemma save_downloaded_set_files fs chat_folder msg_ids chat_meta :
  save_downloaded_set fs chat_folder msg_ids chat_meta =
  Some (<[per_chat_log_path chat_folder :=
            JsonText (ledger_payload msg_ids chat_meta)]>
          (delete (temp_log_path chat_folder) fs)).
Proof.
  unfold save_downloaded_set, os_replace, write_temp_ledger, json_dump.
  rewrite lookup_insert_eq. by rewrite delete_insert_eq.
Qed.

(** C8: saving the ledger stores a JSON object with the members [chat_id],
    [chat_name] and [downloaded_ids], the last one the strictly increasing
    array of exactly the given ids; the document is first written to the
    temporary file, which leaves the ledger file as it was, and one
    [os.replace] then moves it over the ledger path. *)
Theorem ledger_saved_sorted_via_temp fs chat_folder msg_ids chat_meta :
  let log_path := per_chat_log_path chat_folder in
  let temp := temp_log_path chat_folder in
  let staged := write_temp_ledger fs chat_folder msg_ids chat_meta in
  exists ids_written fs',
    save_downloaded_set fs chat_folder msg_ids chat_meta = Some fs'
    /\ fs' !! log_path =
         Some (JsonText (JObj [ ("chat_id", dict_get chat_meta "id" JNull);
                                ("chat_name", dict_get chat_meta "name" JNull);
                                ("downloaded_ids", JArr (JInt <$> ids_written)) ]))
    /\ StronglySorted Z.lt ids_written
    /\ (forall n, n ∈ ids_written <-> n ∈ msg_ids)
    /\ staged !! temp = fs' !! log_path
    /\ staged !! log_path = fs !! log_path
    /\ (forall p, p <> temp -> staged !! p = fs !! p)
    /\ os_replace temp log_path staged = Some fs'
    /\ fs' !! temp = None
    /\ (forall p, p <> log_path -> p <> temp -> fs' !! p = fs !! p).
Proof.
  intros log_path temp staged.
  pose proof (temp_log_path_fresh chat_folder) as Hfresh.
  pose proof (sorted_elements msg_ids) as [Hsorted Hsame].
  exists (sorted (elements msg_ids)),
    (<[log_path := JsonText (ledger_payload msg_ids chat_meta)]> (delete temp fs)).
  assert (Hstaged : forall p, p <> temp -> staged !! p = fs !! p).
  { intros p Hp. unfold staged, write_temp_ledger. by rewrite lookup_insert_ne. }
  split; [apply save_downloaded_set_files|].
  split; [by rewrite lookup_insert_eq|].
  split; [done|]. split; [done|].
  split.
  { unfold staged, write_temp_ledger, json_dump.
    by rewrite !lookup_insert_eq. }
  split; [by apply Hstaged|].
  split; [done|].
  split; [apply save_downloaded_set_files|].
  split.
  { rewrite lookup_insert_ne by done. apply lookup_delete_eq. }
  intros p Hlog Htemp.
  rewrite lookup_insert_ne by done. by rewrite lookup_delete_ne.
Qed.

Lemma load_downloaded_set_insert `{!PyBuiltins} fs chat_folder content :
  load_downloaded_set (<[per_chat_log_path chat_folder := content]> fs) chat_folder
  = default ∅ (read_downloaded_ids content).
Proof.
  unfold load_downloaded_set. cbv zeta. rewrite lookup_insert_eq.
  by destruct (read_downloaded_ids content).
Qed.

Lemma mapM_py_int_bad `{!PyBuiltins} before bad after :
  py_int bad = None -> mapM py_int (before ++ bad :: after) = None.
Proof.
  intros Hbad. apply mapM_None. apply Exists_app. right. by constructor.
Qed.

(** C9: loading the ledger always yields a set. It is the empty set when
    the file is missing, when its content is not JSON, when the document is
    not an object, and when an entry of [downloaded_ids] cannot be read as an
    integer; in general every exception in the body of the [try] gives the
    empty set. *)
Theorem load_tolerates_bad_ledger `{!PyBuiltins} fs chat_folder
    bytes items bad before after others :
  py_int bad = None ->
  let log_path := per_chat_log_path chat_folder in
  load_downloaded_set (delete log_path fs) chat_folder = ∅
  /\ load_downloaded_set (<[log_path := Blob bytes]> fs) chat_folder = ∅
  /\ load_downloaded_set (<[log_path := JsonText (JArr items)]> fs) chat_folder = ∅
  /\ load_downloaded_set
       (<[log_path := JsonText (JObj (("downloaded_ids", JArr (before ++ bad :: after))
                                        :: others))]> fs) chat_folder = ∅
  /\ (forall content,
        load_downloaded_set (<[log_path := content]> fs) chat_folder =
        default ∅ (read_downloaded_ids content)).
Proof.
  intros Hbad log_path. subst log_path. repeat split.
  - unfold load_downloaded_set. cbv zeta. by rewrite lookup_delete_eq.
  - by rewrite load_downloaded_set_insert.
  - by rewrite load_downloaded_set_insert.
  - rewrite load_downloaded_set_insert. unfold read_downloaded_ids. simpl.
    by rewrite mapM_py_int_bad.
  - intros content. apply load_downloaded_set_insert.
Qed.

(** ** One iteration of the download loop *)

Ltac unfold_iteration :=
  repeat progress unfold process_message, try_except, try_download, bind, in_downloaded,
    resolve_target_dir, path_exists, fetch_media, add_downloaded, incr_skipped,
    incr_completed, on_exception, emit, ret, out_path_of, mkdir_events,
    target_dir_of in *.

(** The message is in the ledger: counted as skipped, nothing else. *)
Lemma process_message_known client chat_folder msg st :
  msg_id msg ∈ downloaded_ids st ->
  process_message client chat_folder msg st =
  (Ok tt, {| downloaded_ids := downloaded_ids st; skipped := S (skipped st);
             completed := completed st; files := files st;
             fetches := fetches st; trace := trace st ++ [EvAdvance] |}).
Proof.
  intros Hin. unfold_iteration.
  rewrite bool_decide_eq_true_2 by done. reflexivity.
Qed.

(** The destination file is there already. *)
Lemma process_message_present client chat_folder msg st :
  msg_id msg ∉ downloaded_ids st ->
  is_Some (files st !! out_path_of chat_folder msg) ->
  process_message client chat_folder msg st =
  (Ok tt, {| downloaded_ids := {[ msg_id msg ]} ∪ downloaded_ids st;
             skipped := S (skipped st);
             completed := completed st; files := files st;
             fetches := fetches st;
             trace := trace st ++ mkdir_events chat_folder msg ++ [EvAdvance] |}).
Proof.
  intros Hin Hfile. unfold_iteration.
  rewrite bool_decide_eq_false_2 by done.
  destruct (truthy_int (grouped_id msg)); simpl in *;
    (rewrite bool_decide_eq_true_2 by done); simpl;
    rewrite <- ?app_assoc; reflexivity.
Qed.

(** The transport delivers the file. *)
Lemma process_message_fetched client chat_folder msg st data :
  msg_id msg ∉ downloaded_ids st ->
  files st !! out_path_of chat_folder msg = None ->
  download_media client (fetches st) msg (out_path_of chat_folder msg) = FetchOk data ->
  process_message client chat_folder msg st =
  (Ok tt, {| downloaded_ids := {[ msg_id msg ]} ∪ downloaded_ids st;
             skipped := skipped st;
             completed := S (completed st);
             files := <[out_path_of chat_folder msg := Blob data]> (files st);
             fetches := S (fetches st);
             trace := trace st ++ mkdir_events chat_folder msg ++
                      [EvFetch (msg_id msg) (out_path_of chat_folder msg); EvAdvance] |}).
Proof.
  intros Hin Hfile Hfetch. unfold_iteration.
  rewrite bool_decide_eq_false_2 by done.
  destruct (truthy_int (grouped_id msg)); simpl in *;
    (rewrite bool_decide_eq_false_2 by (rewrite Hfile; by intros [? ?]));
    simpl; rewrite Hfetch; unfold_iteration; simpl; rewrite <- ?app_assoc;
    reflexivity.
Qed.

(** The transport signals a rate limit. *)
Lemma process_message_rate_limited client chat_folder msg st seconds :
  msg_id msg ∉ downloaded_ids st ->
  files st !! out_path_of chat_folder msg = None ->
  download_media client (fetches st) msg (out_path_of chat_folder msg)
    = FetchFloodWait seconds ->
  process_message client chat_folder msg st =
  (Ok tt, {| downloaded_ids := downloaded_ids st;
             skipped := skipped st;
             completed := completed st;
             files := files st;
             fetches := S (fetches st);
             trace := trace st ++ mkdir_events chat_folder msg ++
                      [EvFetch (msg_id msg) (out_path_of chat_folder msg);
                       EvPrintRateLimited seconds; EvSleep seconds] |}).
Proof.
  intros Hin Hfile Hfetch. unfold_iteration.
  rewrite bool_decide_eq_false_2 by done.
  destruct (truthy_int (grouped_id msg)); simpl in *;
    (rewrite bool_decide_eq_false_2 by (rewrite Hfile; by intros [? ?]));
    simpl; rewrite Hfetch; unfold_iteration; simpl; rewrite <- ?app_assoc;
    reflexivity.
Qed.

(** The transport fails in another way. *)
Lemma process_message_failed client chat_folder msg st e :
  msg_id msg ∉ downloaded_ids st ->
  files st !! out_path_of chat_folder msg = None ->
  download_media client (fetches st) msg (out_path_of chat_folder msg) = FetchError e ->
  process_message client chat_folder msg st =
  (Ok tt, {| downloaded_ids := downloaded_ids st;
             skipped := skipped st;
             completed := completed st;
             files := files st;
             fetches := S (fetches st);
             trace := trace st ++ mkdir_events chat_folder msg ++
                      [EvFetch (msg_id msg) (out_path_of chat_folder msg);
                       EvPrintError (msg_id msg) e; EvAdvance] |}).
Proof.
  intros Hin Hfile Hfetch. unfold_iteration.
  rewrite bool_decide_eq_false_2 by done.
  destruct (truthy_int (grouped_id msg)); simpl in *;
    (rewrite bool_decide_eq_false_2 by (rewrite Hfile; by intros [? ?]));
    simpl; rewrite Hfetch; unfold_iteration; simpl; rewrite <- ?app_assoc;
    reflexivity.
Qed.

Ltac not_a_fetch :=
  let H := fresh in
  simpl; intros ? ? H;
  repeat (apply elem_of_cons in H as [H|H]; [discriminate H|]);
  by apply elem_of_nil in H.

(** What any iteration does: it ends normally, appends to the trace, may add
    only its own id to the ledger, keeps every file there is, creates at
    most its own destination file, never lowers a counter, and fetches only
    a message that is not in the ledger and whose file is not there. *)
Lemma process_message_effect client chat_folder msg st :
  exists st' evs,
    process_message client chat_folder msg st = (Ok tt, st')
    /\ trace st' = trace st ++ evs
    /\ downloaded_ids st ⊆ downloaded_ids st'
    /\ downloaded_ids st' ⊆ {[ msg_id msg ]} ∪ downloaded_ids st
    /\ (forall p c, files st !! p = Some c -> files st' !! p = Some c)
    /\ (forall p, p <> out_path_of chat_folder msg -> files st' !! p = files st !! p)
    /\ (forall m p, EvFetch m p ∈ evs ->
          m = msg_id msg /\ p = out_path_of chat_folder msg
          /\ (m ∉ downloaded_ids st) /\ files st !! p = None)
    /\ (skipped st <= skipped st')%nat /\ (completed st <= completed st')%nat.
Proof.
  assert (Hevs : forall tail m p,
            (forall m' p', EvFetch m' p' ∉ tail) ->
            EvFetch m p ∈ mkdir_events chat_folder msg ++ tail -> False).
  { intros tail m p Htail Hev. unfold mkdir_events in Hev.
    destruct (truthy_int (grouped_id msg)); simpl in Hev;
      [apply elem_of_cons in Hev as [Hev|Hev]; [done|]|]; by apply Htail in Hev. }
  assert (Hevs' : forall tail m p,
            (forall m' p', EvFetch m' p' ∉ tail) ->
            EvFetch m p ∈ mkdir_events chat_folder msg ++
              EvFetch (msg_id msg) (out_path_of chat_folder msg) :: tail ->
            m = msg_id msg /\ p = out_path_of chat_folder msg).
  { intros tail m p Htail Hev. apply elem_of_app in Hev as [Hev|Hev].
    - exfalso. apply (Hevs [] m p); [by intros ? ? ?%elem_of_nil|].
      by rewrite app_nil_r.
    - apply elem_of_cons in Hev as [Hev|Hev]; [by inversion Hev|].
      by apply Htail in Hev. }
  destruct (decide (msg_id msg ∈ downloaded_ids st)) as [Hin|Hin].
  { eexists _, _. split; [by apply process_message_known|]. simpl.
    split_and!; try done; try lia; try apply union_subseteq_r.
    intros m p Hev. apply list_elem_of_singleton in Hev. done. }
  destruct (files st !! out_path_of chat_folder msg) as [c|] eqn:Hfile.
  { eexists _, _. split; [apply process_message_present; by eauto|]. simpl.
    split_and!; try done; try lia; try apply union_subseteq_r.
    intros m p Hev. exfalso. apply (Hevs [EvAdvance] m p); [|done].
    not_a_fetch. }
  destruct (download_media client (fetches st) msg (out_path_of chat_folder msg))
    as [data|seconds|e] eqn:Hfetch.
  - eexists _, _. split; [by apply process_message_fetched|]. simpl.
    split_and!; try done; try lia; try apply union_subseteq_r.
    + intros p c Hp. rewrite lookup_insert_ne; [done|]. congruence.
    + intros p Hp. by rewrite lookup_insert_ne.
    + intros m p Hev. apply Hevs' in Hev as [-> ->]; [done|]. not_a_fetch.
  - eexists _, _. split; [by apply process_message_rate_limited|]. simpl.
    split_and!; try done; try lia; try apply union_subseteq_r.
    intros m p Hev. apply Hevs' in Hev as [-> ->]; [done|]. not_a_fetch.
  - eexists _, _. split; [by apply process_message_failed|]. simpl.
    split_and!; try done; try lia; try apply union_subseteq_r.
    intros m p Hev. apply Hevs' in Hev as [-> ->]; [done|]. not_a_fetch.
Qed.

(** ** The whole loop and the pass *)

Lemma run_nil client chat_folder st : run client chat_folder [] st = st.
Proof. reflexivity. Qed.

Lemma run_cons client chat_folder msg rest st :
  run client chat_folder (msg :: rest) st =
  run client chat_folder rest (process_message client chat_folder msg st).2.
Proof.
  unfold run. simpl. unfold bind.
  destruct (process_message_effect client chat_folder msg st)
    as (st' & evs & -> & _). reflexivity.
Qed.

Lemma run_app client chat_folder before after st :
  run client chat_folder (before ++ after) st =
  run client chat_folder after (run client chat_folder before st).
Proof.
  revert st. induction before as [|msg before IH]; intros st; [done|].
  rewrite <- app_comm_cons, !run_cons. apply IH.
Qed.

(** The loop never raises. *)
Lemma for_messages_run client chat_folder messages st :
  for_messages client chat_folder messages st =
  (Ok tt, run client chat_folder messages st).
Proof.
  revert st. induction messages as [|msg rest IH]; intros st; [done|].
  rewrite run_cons. simpl. unfold bind.
  destruct (process_message_effect client chat_folder msg st)
    as (st' & evs & -> & _). apply IH.
Qed.

(** What the loop does, whatever the messages and the transport. *)
Lemma run_effect client chat_folder messages : forall st,
  exists evs,
    trace (run client chat_folder messages st) = trace st ++ evs
    /\ downloaded_ids st ⊆ downloaded_ids (run client chat_folder messages st)
    /\ (forall p c, files st !! p = Some c ->
          files (run client chat_folder messages st) !! p = Some c)
    /\ (forall m p, EvFetch m p ∈ evs ->
          (m ∉ downloaded_ids st) /\ files st !! p = None)
    /\ (skipped st <= skipped (run client chat_folder messages st))%nat
    /\ (completed st <= completed (run client chat_folder messages st))%nat.
Proof.
  induction messages as [|msg rest IH]; intros st.
  { exists []. rewrite run_nil, app_nil_r. split_and!; try done.
    by intros ? ? ?%elem_of_nil. }
  rewrite run_cons.
  destruct (process_message_effect client chat_folder msg st)
    as (st1 & evs1 & -> & Htr1 & Hids1 & _ & Hfiles1 & _ & Hfetch1 & Hsk1 & Hco1).
  simpl. destruct (IH st1) as (evs2 & Htr2 & Hids2 & Hfiles2 & Hfetch2 & Hsk2 & Hco2).
  exists (evs1 ++ evs2). split_and!.
  - by rewrite Htr2, Htr1, app_assoc.
  - by etrans.
  - intros p c Hp. by apply Hfiles2, Hfiles1.
  - intros m p [Hev|Hev]%elem_of_app.
    + by apply Hfetch1 in Hev as (_ & _ & ? & ?).
    + apply Hfetch2 in Hev as [Hm Hp]. split.
      * intros Hin. by apply Hm, Hids1.
      * destruct (files st !! p) as [c|] eqn:Hc; [|done].
        apply Hfiles1 in Hc. congruence.
  - lia.
  - lia.
Qed.

(** The pass never raises: it returns the two counters of the loop and
    leaves the ledger saved. *)
Lemma download_messages_eq `{!PyBuiltins} client chat messages chat_folder fs :
  let st := run client chat_folder messages (initial_state fs chat_folder) in
  download_messages client chat messages chat_folder fs =
  (Ok (completed st, skipped st), saved_state chat chat_folder st).
Proof.
  unfold download_messages, bind. rewrite for_messages_run.
  unfold save_ledger. rewrite save_downloaded_set_files. reflexivity.
Qed.

(** Messages that are all in the ledger or on disk are all skipped, and
    nothing is fetched or written. *)
Lemma run_skips_all client chat_folder messages : forall st,
  (forall msg, msg ∈ messages ->
     msg_id msg ∈ downloaded_ids st
     \/ is_Some (files st !! out_path_of chat_folder msg)) ->
  let st' := run client chat_folder messages st in
  skipped st' = (length messages + skipped st)%nat
  /\ completed st' = completed st
  /\ files st' = files st
  /\ fetches st' = fetches st
  /\ downloaded_ids st' = list_to_set (msg_id <$> messages) ∪ downloaded_ids st
  /\ exists evs, trace st' = trace st ++ evs /\ forall m p, EvFetch m p ∉ evs.
Proof.
  induction messages as [|msg rest IH]; intros st Hall; simpl.
  { rewrite run_nil. split_and!; try done; [set_solver|].
    exists []. rewrite app_nil_r. split; [done|]. not_a_fetch. }
  rewrite run_cons.
  assert (Hstep : exists st1,
            process_message client chat_folder msg st = (Ok tt, st1)
            /\ skipped st1 = S (skipped st) /\ completed st1 = completed st
            /\ files st1 = files st /\ fetches st1 = fetches st
            /\ downloaded_ids st1 = {[ msg_id msg ]} ∪ downloaded_ids st
            /\ exists evs, trace st1 = trace st ++ evs
                           /\ forall m p, EvFetch m p ∉ evs).
  { destruct (decide (msg_id msg ∈ downloaded_ids st)) as [Hin|Hin].
    - eexists. split; [by apply process_message_known|]. simpl.
      split_and!; try done; [set_solver|].
      exists [EvAdvance]. split; [done|]. not_a_fetch.
    - destruct (Hall msg) as [?|Hfile]; [set_solver|done|].
      eexists. split; [by apply process_message_present|]. simpl.
      split_and!; try done. eexists. split; [done|].
      unfold mkdir_events. destruct (truthy_int (grouped_id msg)); not_a_fetch. }
  destruct Hstep as (st1 & -> & Hsk & Hco & Hfi & Hfe & Hids & evs1 & Htr & Hev1).
  simpl.
  destruct (IH st1) as (Hsk' & Hco' & Hfi' & Hfe' & Hids' & evs2 & Htr' & Hev2).
  { intros other Hother. rewrite Hids, Hfi.
    destruct (Hall other) as [?|?]; [set_solver|left; set_solver|by right]. }
  split_and!; try congruence.
  - rewrite Hsk', Hsk. lia.
  - rewrite Hids', Hids. set_solver.
  - exists (evs1 ++ evs2). split; [by rewrite Htr', Htr, app_assoc|].
    intros m p [Hin|Hin]%elem_of_app; [by apply Hev1 in Hin|by apply Hev2 in Hin].
Qed.

(** Fresh messages with distinct ids whose fetches all succeed are all
    downloaded. *)
Lemma run_downloads_all client chat_folder messages : forall st,
  NoDup (msg_id <$> messages) ->
  (forall msg, msg ∈ messages -> msg_id msg ∉ downloaded_ids st) ->
  (forall msg, msg ∈ messages -> files st !! out_path_of chat_folder msg = None) ->
  (forall n msg, msg ∈ messages ->
     exists data,
       download_media client n msg (out_path_of chat_folder msg) = FetchOk data) ->
  let st' := run client chat_folder messages st in
  completed st' = (length messages + completed st)%nat
  /\ skipped st' = skipped st
  /\ downloaded_ids st' = list_to_set (msg_id <$> messages) ∪ downloaded_ids st.
Proof.
  induction messages as [|msg rest IH]; intros st Hnd Hids Hfiles Hfetch; simpl.
  { rewrite run_nil. split_and!; try done. set_solver. }
  rewrite run_cons. rewrite fmap_cons in Hnd. apply NoDup_cons in Hnd as [Hfresh Hnd].
  destruct (Hfetch (fetches st) msg) as [data Hdata]; [set_solver|].
  rewrite (process_message_fetched _ _ _ _ data); [|set_solver..|done].
  simpl.
  match goal with |- context [run _ _ _ ?s] => destruct (IH s) as (Hco & Hsk & Hset) end.
  - done.
  - intros other Hother. simpl.
    assert (msg_id other <> msg_id msg).
    { intros Heq. apply Hfresh. rewrite <- Heq. by apply list_elem_of_fmap_2. }
    specialize (Hids other). set_solver.
  - intros other Hother. simpl.
    rewrite lookup_insert_ne; [set_solver|].
    intros Heq. apply out_path_of_inj in Heq.
    apply Hfresh. rewrite Heq. by apply list_elem_of_fmap_2.
  - intros n other Hother. apply Hfetch. set_solver.
  - simpl in *. split_and!.
    + rewrite Hco. lia.
    + done.
    + rewrite Hset. set_solver.
Qed.

(** ** Saving and loading the ledger *)

Lemma mapM_py_int_JInt `{!PyBuiltins} (l : list Z) :
  mapM py_int (JInt <$> l) = Some l.
Proof.
  induction l as [|n l IH]; [done|].
  rewrite fmap_cons. change (mapM py_int (JInt n :: (JInt <$> l)))
    with (y ← py_int (JInt n); k ← mapM py_int (JInt <$> l); mret (y :: k)).
  by rewrite IH.
Qed.

(** A saved ledger loads as the set that was saved. *)
Lemma load_saved_ledger `{!PyBuiltins} fs chat_folder msg_ids chat_meta :
  load_downloaded_set
    (<[per_chat_log_path chat_folder := JsonText (ledger_payload msg_ids chat_meta)]> fs)
    chat_folder = msg_ids.
Proof.
  rewrite load_downloaded_set_insert. unfold read_downloaded_ids. csimpl.
  rewrite mapM_py_int_JInt. csimpl.
  apply set_eq. intros n. rewrite elem_of_list_to_set.
  apply sorted_elements.
Qed.

(** ** Deduplication against the ledger *)

(** C2: a message whose id is in the ledger loaded at the start of the pass
    is counted as skipped and not as completed when its turn comes, and no
    fetch for that id happens anywhere in the pass. *)
Theorem ledger_ids_skipped_never_fetched `{!PyBuiltins} client chat messages
    chat_folder fs m :
  m ∈ load_downloaded_set fs chat_folder ->
  (forall path,
     EvFetch m path ∉ trace (download_messages client chat messages chat_folder fs).2)
  /\ (forall before msg after,
        messages = before ++ msg :: after -> msg_id msg = m ->
        let st := run client chat_folder before (initial_state fs chat_folder) in
        process_message client chat_folder msg st =
        (Ok tt, {| downloaded_ids := downloaded_ids st;
                   skipped := S (skipped st);
                   completed := completed st;
                   files := files st;
                   fetches := fetches st;
                   trace := trace st ++ [EvAdvance] |})).
Proof.
  intros Hm. split.
  - intros path Hev. rewrite download_messages_eq in Hev. simpl in Hev.
    destruct (run_effect client chat_folder messages (initial_state fs chat_folder))
      as (evs & Htrace & _ & _ & Hfetch & _).
    rewrite Htrace in Hev. simpl in Hev.
    by apply Hfetch in Hev as [Hnot _].
  - intros before msg after -> <- st.
    apply process_message_known.
    destruct (run_effect client chat_folder before (initial_state fs chat_folder))
      as (_ & _ & Hids & _).
    by apply Hids.
Qed.

(** ** Reconciliation with files on disk *)

(** C4: when the destination file of a message is on disk at the start of
    the pass, its iteration puts the id into the ledger and counts it as
    skipped, fetches nothing and leaves the files as they are; no fetch to
    that path happens in the whole pass, the file keeps its content and the
    id is in the ledger that is saved. In particular, after the ledger file
    was deleted, a pass over messages that all have their files returns
    zero completed and all skipped. *)
Theorem existing_file_reconciled `{!PyBuiltins} client chat before msg after
    chat_folder fs content :
  fs !! out_path_of chat_folder msg = Some content ->
  let messages := before ++ msg :: after in
  let st := run client chat_folder before (initial_state fs chat_folder) in
  let st' := (process_message client chat_folder msg st).2 in
  let final := (download_messages client chat messages chat_folder fs).2 in
  let rerun :=
    download_messages client chat messages chat_folder
      (delete (per_chat_log_path chat_folder) fs) in
  (downloaded_ids st' = {[ msg_id msg ]} ∪ downloaded_ids st
   /\ skipped st' = S (skipped st)
   /\ completed st' = completed st
   /\ files st' = files st
   /\ fetches st' = fetches st
   /\ exists evs, trace st' = trace st ++ evs /\ forall m p, EvFetch m p ∉ evs)
  /\ (forall m, EvFetch m (out_path_of chat_folder msg) ∉ trace final)
  /\ files final !! out_path_of chat_folder msg = Some content
  /\ msg_id msg ∈ load_downloaded_set (files final) chat_folder
  /\ ((forall other, other ∈ messages ->
         is_Some (fs !! out_path_of chat_folder other)) ->
      rerun.1 = Ok (0%nat, length messages)
      /\ (forall other, other ∈ messages ->
            files rerun.2 !! out_path_of chat_folder other
            = fs !! out_path_of chat_folder other)
      /\ forall m p, EvFetch m p ∉ trace rerun.2).
Proof.
  intros Hfile messages st st' final rerun.
  destruct (run_effect client chat_folder before (initial_state fs chat_folder))
    as (evs0 & Htr0 & Hids0 & Hfiles0 & _).
  assert (Hst : files st !! out_path_of chat_folder msg = Some content)
    by (by apply Hfiles0).
  split.
  { subst st'. destruct (decide (msg_id msg ∈ downloaded_ids st)) as [Hin|Hin].
    - rewrite process_message_known by done. simpl.
      split_and!; try done; [set_solver|]. exists [EvAdvance]. split; [done|].
      not_a_fetch.
    - rewrite process_message_present by eauto. simpl.
      split_and!; try done. eexists. split; [done|].
      unfold mkdir_events. destruct (truthy_int (grouped_id msg)); not_a_fetch. }
  split_and!.
  - intros m Hev. subst final. rewrite download_messages_eq in Hev. simpl in Hev.
    destruct (run_effect client chat_folder messages (initial_state fs chat_folder))
      as (evs & Htrace & _ & _ & Hfetch & _).
    rewrite Htrace in Hev. simpl in Hev.
    apply Hfetch in Hev as [_ Hnone]. simpl in Hnone. congruence.
  - subst final. rewrite download_messages_eq. simpl.
    destruct (out_path_of_not_ledger chat_folder msg) as [Hlog Htemp].
    rewrite lookup_insert_ne by done. rewrite lookup_delete_ne by done.
    destruct (run_effect client chat_folder messages (initial_state fs chat_folder))
      as (_ & _ & _ & Hfiles & _).
    by apply Hfiles.
  - subst final. rewrite download_messages_eq. simpl.
    rewrite load_saved_ledger. subst messages. rewrite run_app, run_cons.
    fold st. fold st'.
    destruct (run_effect client chat_folder after st') as (_ & _ & Hids & _).
    apply Hids. subst st'.
    destruct (decide (msg_id msg ∈ downloaded_ids st)) as [Hin|Hin].
    + by rewrite process_message_known.
    + rewrite process_message_present by eauto. simpl. set_solver.
  - intros Hall. subst rerun. rewrite download_messages_eq. simpl.
    set (fs0 := delete (per_chat_log_path chat_folder) fs).
    assert (Hkeep : forall other,
              fs0 !! out_path_of chat_folder other
              = fs !! out_path_of chat_folder other).
    { intros other. unfold fs0. apply lookup_delete_ne.
      destruct (out_path_of_not_ledger chat_folder other) as [Hlog _].
      congruence. }
    destruct (run_skips_all client chat_folder messages
                (initial_state fs0 chat_folder))
      as (Hsk & Hco & Hfi & Hfe & _ & evs & Htrace & Hnofetch).
    { intros other Hother. right. simpl. rewrite Hkeep. by apply Hall. }
    split_and!.
    + rewrite Hsk, Hco. simpl. by rewrite Nat.add_0_r.
    + intros other Hother.
      destruct (out_path_of_not_ledger chat_folder other) as [Hlog Htemp].
      rewrite lookup_insert_ne by done. rewrite lookup_delete_ne by done.
      rewrite Hfi. simpl. apply Hkeep.
    + intros m p Hev. rewrite Htrace in Hev. simpl in Hev.
      by apply Hnofetch in Hev.
Qed.

(** ** Failures of the transport *)

(** C6: when the fetch of a message fails with an error that is not a rate
    limit, its iteration ends normally: the error is printed with the
    message id, progress advances, the message is fetched exactly once, and
    the ledger, the files and both counters are as before; the loop goes on
    with the messages after it from that state and the pass returns its
    counters. *)
Theorem fetch_error_is_isolated `{!PyBuiltins} client chat before msg after
    chat_folder fs e :
  let st := run client chat_folder before (initial_state fs chat_folder) in
  msg_id msg ∉ downloaded_ids st ->
  files st !! out_path_of chat_folder msg = None ->
  download_media client (fetches st) msg (out_path_of chat_folder msg) = FetchError e ->
  let st' := (process_message client chat_folder msg st).2 in
  (process_message client chat_folder msg st).1 = Ok tt
  /\ trace st' = trace st ++ mkdir_events chat_folder msg ++
                 [EvFetch (msg_id msg) (out_path_of chat_folder msg);
                  EvPrintError (msg_id msg) e; EvAdvance]
  /\ downloaded_ids st' = downloaded_ids st
  /\ files st' = files st
  /\ skipped st' = skipped st
  /\ completed st' = completed st
  /\ run client chat_folder (before ++ msg :: after) (initial_state fs chat_folder)
     = run client chat_folder after st'
  /\ exists n_completed n_skipped,
       (download_messages client chat (before ++ msg :: after) chat_folder fs).1
       = Ok (n_completed, n_skipped).
Proof.
  intros st Hid Hfile Hfetch st'. subst st'.
  rewrite (process_message_failed _ _ _ _ e) by done. simpl.
  split_and!; try done.
  - rewrite run_app, run_cons. fold st.
    by rewrite (process_message_failed _ _ _ _ e).
  - rewrite download_messages_eq. simpl. eauto.
Qed.

(** C1, on the code as it is: the first fetch of message 7 is answered with
    a rate limit of 2 seconds and every later fetch would succeed. The pass
    prints, sleeps 2 seconds and goes on with message 8; message 7 is fetched
    once only, progress advances once for two messages, and message 7 is
    neither completed nor skipped, nor on disk, nor in the saved ledger. *)
Theorem rate_limited_message_not_retried :
  let answer := fun n : nat =>
    match n with
    | O => FetchFloodWait 2
    | S _ => FetchOk "bytes"
    end in
  let client := scripted_client [] answer in
  let messages := [photo_message 7 None None; photo_message 8 None None] in
  let result :=
    @download_messages strict_builtins client sample_chat messages
      "downloads/Holiday" ∅ in
  result.1 = Ok (1%nat, 0%nat)
  /\ trace result.2 =
       [EvFetch 7 "downloads/Holiday/msg_7_file.jpg";
        EvPrintRateLimited 2; EvSleep 2;
        EvFetch 8 "downloads/Holiday/msg_8_file.jpg"; EvAdvance]
  /\ files result.2 !! "downloads/Holiday/msg_7_file.jpg" = None
  /\ files result.2 !! "downloads/Holiday/msg_8_file.jpg" = Some (Blob "bytes")
  /\ files result.2 !! "downloads/Holiday/_downloaded.json" =
       Some (JsonText (JObj [ ("chat_id", JInt 42); ("chat_name", JStr "Holiday");
                              ("downloaded_ids", JArr [JInt 8]) ])).
Proof. vm_compute. done. Qed.

(** ** Running a pass twice *)

(** C3: a first pass over [N] messages with distinct ids, none of them in
    the ledger or on disk, whose fetches all succeed, returns [N] completed
    and none skipped; a second pass over the same messages on the file system
    the first one left returns none completed and [N] skipped, whatever the
    transport does then. *)
Theorem second_pass_skips_everything `{!PyBuiltins} client client' chat messages
    chat_folder fs :
  NoDup (msg_id <$> messages) ->
  (forall msg, msg ∈ messages -> msg_id msg ∉ load_downloaded_set fs chat_folder) ->
  (forall msg, msg ∈ messages -> fs !! out_path_of chat_folder msg = None) ->
  (forall n msg, msg ∈ messages ->
     exists data,
       download_media client n msg (out_path_of chat_folder msg) = FetchOk data) ->
  let first := download_messages client chat messages chat_folder fs in
  let second := download_messages client' chat messages chat_folder (files first.2) in
  first.1 = Ok (length messages, 0%nat)
  /\ second.1 = Ok (0%nat, length messages).
Proof.
  intros Hnd Hids Hfiles Hfetch first second.
  destruct (run_downloads_all client chat_folder messages
              (initial_state fs chat_folder) Hnd Hids Hfiles Hfetch)
    as (Hco & Hsk & Hset).
  split.
  - subst first. rewrite download_messages_eq. simpl.
    rewrite Hco, Hsk. simpl. by rewrite Nat.add_0_r.
  - subst second first. rewrite (download_messages_eq client). simpl.
    rewrite download_messages_eq. simpl.
    match goal with
    | |- context [run client' chat_folder messages ?s] =>
        destruct (run_skips_all client' chat_folder messages s)
          as (Hsk' & Hco' & _)
    end.
    { intros msg Hmsg. left. simpl. rewrite load_saved_ledger, Hset.
      apply elem_of_union_l, elem_of_list_to_set. by apply list_elem_of_fmap_2. }
    rewrite Hsk', Hco'. simpl. by rewrite Nat.add_0_r.
Qed.

(** ** The theorems at sample inputs *)

Lemma unique_filename_per_message_witness :
  let m1 := photo_message 1 None (Some "cat.jpg") in
  let m2 := photo_message 2 None (Some "cat.jpg") in
  msg_id m1 <> msg_id m2
  /\ (build_unique_filename m1 ".bin" <> build_unique_filename m2 ".bin"
      /\ build_unique_filename m1 ".bin" = resolved_filename m1 ".bin"
      /\ build_unique_filename m2 ".bin" = resolved_filename m2 ".bin").
Proof.
  intros m1 m2.
  assert (Hid : msg_id m1 <> msg_id m2) by (vm_compute; discriminate).
  split; [exact Hid|].
  exact (unique_filename_per_message m1 m2 ".bin" Hid).
Defined.

Lemma collector_order_witness :
  let delivery := [Some (photo_message 5 None None); None;
                   Some (photo_message 3 None None);
                   Some (photo_message 1 None None)] in
  let client := scripted_client delivery always_ok in
  StronglySorted Z.gt (msg_id <$> omap id (iter_messages client sample_chat 500))
  /\ StronglySorted Z.lt
       (msg_id <$> collect_media_messages client sample_chat "photos" 500 "oldest").
Proof.
  intros delivery client.
  assert (Hnewest_first :
            StronglySorted Z.gt
              (msg_id <$> omap id (iter_messages client sample_chat 500))).
  { change (StronglySorted Z.gt [5; 3; 1]). repeat constructor. }
  split; [exact Hnewest_first|].
  exact (proj1 (proj2 (collector_order client sample_chat "photos" 500 "newest"))
           Hnewest_first).
Defined.

Lemma other_media_type_means_both_witness :
  let delivered := [Some (photo_message 5 None None); None;
                    Some (photo_message 3 None None)] in
  let client := scripted_client delivered always_ok in
  "audio" <> "photos" /\ "audio" <> "videos"
  /\ (collect_media_messages client sample_chat "audio" 500 "oldest" =
        collect_media_messages client sample_chat "both" 500 "oldest"
      /\ forall msg,
           msg ∈ collect_media_messages client sample_chat "audio" 500 "oldest" <->
           Some msg ∈ iter_messages client sample_chat 500
           /\ is_Some (media msg)
           /\ (is_photo_message (Some msg) = true
               \/ is_video_message (Some msg) = true)).
Proof.
  intros delivered client.
  assert (Hp : "audio" <> "photos") by discriminate.
  assert (Hv : "audio" <> "videos") by discriminate.
  split; [exact Hp|]. split; [exact Hv|].
  exact (other_media_type_means_both client sample_chat "audio" 500 "oldest" Hp Hv).
Defined.

Lemma load_tolerates_bad_ledger_witness :
  let log_path := per_chat_log_path sample_folder in
  @py_int strict_builtins JNull = None
  /\ (@load_downloaded_set strict_builtins (delete log_path fs_with_ledger)
        sample_folder = ∅
      /\ @load_downloaded_set strict_builtins
           (<[log_path := Blob "{not json"]> fs_with_ledger) sample_folder = ∅
      /\ @load_downloaded_set strict_builtins
           (<[log_path := JsonText (JArr [JInt 7])]> fs_with_ledger) sample_folder = ∅
      /\ @load_downloaded_set strict_builtins
           (<[log_path := JsonText (JObj (("downloaded_ids",
                                           JArr ([JInt 1] ++ JNull :: [JInt 2]))
                                          :: []))]> fs_with_ledger)
           sample_folder = ∅
      /\ (forall content,
            @load_downloaded_set strict_builtins
              (<[log_path := content]> fs_with_ledger) sample_folder =
            default ∅ (@read_downloaded_ids strict_builtins content))).
Proof.
  intros log_path.
  assert (Hbad : @py_int strict_builtins JNull = None) by reflexivity.
  split; [exact Hbad|].
  exact (@load_tolerates_bad_ledger strict_builtins fs_with_ledger sample_folder
           "{not json" [JInt 7] JNull [JInt 1] [JInt 2] [] Hbad).
Defined.

Lemma ledger_ids_skipped_never_fetched_witness :
  let messages := [photo_message 7 None None; photo_message 8 None None] in
  let client := scripted_client [] always_ok in
  7 ∈ @load_downloaded_set strict_builtins fs_with_ledger sample_folder
  /\ ((forall path,
         EvFetch 7 path ∉
           trace (@download_messages strict_builtins client sample_chat messages
                    sample_folder fs_with_ledger).2)
      /\ (forall before msg after,
            messages = before ++ msg :: after -> msg_id msg = 7 ->
            let st := run client sample_folder before
                        (@initial_state strict_builtins fs_with_ledger sample_folder) in
            process_message client sample_folder msg st =
            (Ok tt, {| downloaded_ids := downloaded_ids st;
                       skipped := S (skipped st);
                       completed := completed st;
                       files := files st;
                       fetches := fetches st;
                       trace := trace st ++ [EvAdvance] |}))).
Proof.
  intros messages client.
  assert (Hin : 7 ∈ @load_downloaded_set strict_builtins fs_with_ledger sample_folder)
    by (vm_compute; reflexivity).
  split; [exact Hin|].
  exact (@ledger_ids_skipped_never_fetched strict_builtins client sample_chat
           messages sample_folder fs_with_ledger 7 Hin).
Defined.

Lemma existing_file_reconciled_witness :
  let msg := photo_message 7 None None in
  let client := scripted_client [] always_ok in
  fs_with_file !! out_path_of sample_folder msg = Some (Blob "old bytes")
  /\ (@download_messages strict_builtins client sample_chat [msg] sample_folder
        (delete (per_chat_log_path sample_folder) fs_with_file)).1
     = Ok (0%nat, 1%nat)
  /\ files (@download_messages strict_builtins client sample_chat [msg]
              sample_folder fs_with_file).2 !! out_path_of sample_folder msg
     = Some (Blob "old bytes")
  /\ msg_id msg ∈
       @load_downloaded_set strict_builtins
         (files (@download_messages strict_builtins client sample_chat [msg]
                   sample_folder fs_with_file).2) sample_folder.
Proof.
  intros msg client.
  assert (Hfile : fs_with_file !! out_path_of sample_folder msg
                  = Some (Blob "old bytes")) by (vm_compute; reflexivity).
  split; [exact Hfile|].
  destruct (@existing_file_reconciled strict_builtins client sample_chat [] msg []
              sample_folder fs_with_file (Blob "old bytes") Hfile)
    as (_ & _ & Hkept & Hledger & Hrerun).
  split; [|split; [exact Hkept|exact Hledger]].
  apply Hrerun.
  intros other Hother. apply list_elem_of_singleton in Hother. subst other.
  rewrite Hfile. by eexists.
Defined.

Lemma fetch_error_is_isolated_witness :
  let msg := photo_message 7 None None in
  let after := [photo_message 8 None None] in
  let client := scripted_client [] always_failing in
  let st := run client sample_folder []
              (@initial_state strict_builtins ∅ sample_folder) in
  let st' := (process_message client sample_folder msg st).2 in
  (msg_id msg ∉ downloaded_ids st)
  /\ files st !! out_path_of sample_folder msg = None
  /\ download_media client (fetches st) msg (out_path_of sample_folder msg)
     = FetchError "timeout"
  /\ ((process_message client sample_folder msg st).1 = Ok tt
      /\ trace st' = trace st ++ mkdir_events sample_folder msg ++
                     [EvFetch (msg_id msg) (out_path_of sample_folder msg);
                      EvPrintError (msg_id msg) "timeout"; EvAdvance]
      /\ downloaded_ids st' = downloaded_ids st
      /\ files st' = files st
      /\ skipped st' = skipped st
      /\ completed st' = completed st
      /\ run client sample_folder ([] ++ msg :: after)
           (@initial_state strict_builtins ∅ sample_folder)
         = run client sample_folder after st'
      /\ exists n_completed n_skipped,
           (@download_messages strict_builtins client sample_chat
              ([] ++ msg :: after) sample_folder ∅).1
           = Ok (n_completed, n_skipped)).
Proof.
  intros msg after client st st'.
  assert (Hid : msg_id msg ∉ downloaded_ids st) by (vm_compute; discriminate).
  assert (Hfile : files st !! out_path_of sample_folder msg = None)
    by (vm_compute; reflexivity).
  assert (Hfetch : download_media client (fetches st) msg
                     (out_path_of sample_folder msg) = FetchError "timeout")
    by reflexivity.
  split; [exact Hid|]. split; [exact Hfile|]. split; [exact Hfetch|].
  exact (@fetch_error_is_isolated strict_builtins client sample_chat [] msg after
           sample_folder ∅ "timeout" Hid Hfile Hfetch).
Defined.

Lemma second_pass_skips_everything_witness :
  let messages := [photo_message 1 None None; photo_message 2 (Some 9) None] in
  let client := scripted_client [] always_ok in
  let client' := scripted_client [] always_failing in
  let first := @download_messages strict_builtins client sample_chat messages
                 sample_folder ∅ in
  let second := @download_messages strict_builtins client' sample_chat messages
                  sample_folder (files first.2) in
  NoDup (msg_id <$> messages)
  /\ (forall msg, msg ∈ messages ->
        msg_id msg ∉ @load_downloaded_set strict_builtins ∅ sample_folder)
  /\ (forall msg, msg ∈ messages ->
        (∅ : FileSystem) !! out_path_of sample_folder msg = None)
  /\ (forall n msg, msg ∈ messages ->
        exists data,
          download_media client n msg (out_path_of sample_folder msg) = FetchOk data)
  /\ (first.1 = Ok (length messages, 0%nat)
      /\ second.1 = Ok (0%nat, length messages)).
Proof.
  intros messages client client' first second.
  assert (Hnd : NoDup (msg_id <$> messages)).
  { change (NoDup [1; 2]). apply NoDup_cons. split; [|apply NoDup_singleton].
    intros Hin%list_elem_of_singleton. discriminate Hin. }
  assert (Hids : forall msg, msg ∈ messages ->
            msg_id msg ∉ @load_downloaded_set strict_builtins ∅ sample_folder).
  { intros msg _. vm_compute. discriminate. }
  assert (Hfiles : forall msg, msg ∈ messages ->
            (∅ : FileSystem) !! out_path_of sample_folder msg = None).
  { intros msg _. apply lookup_empty. }
  assert (Hfetch : forall n msg, msg ∈ messages ->
            exists data,
              download_media client n msg (out_path_of sample_folder msg)
              = FetchOk data).
  { intros n msg _. exists "bytes". reflexivity. }
  split; [exact Hnd|]. split; [exact Hids|]. split; [exact Hfiles|].
  split; [exact Hfetch|].
  exact (@second_pass_skips_everything strict_builtins client client' sample_chat
           messages sample_folder ∅ Hnd Hids Hfiles Hfetch).
Defined.

(** * Further properties of the code *)

(** ** The ledger file *)

(** X1: whatever the ledger path held before, saving a set of ids and then
    loading the ledger gives back exactly that set. *)
Theorem ledger_save_load_round_trip `{!PyBuiltins} fs chat_folder msg_ids chat_meta :
  exists fs',
    save_downloaded_set fs chat_folder msg_ids chat_meta = Some fs'
    /\ load_downloaded_set fs' chat_folder = msg_ids.
Proof.
  eexists. split; [apply save_downloaded_set_files|].
  apply load_saved_ledger.
Qed.

(** X2: the files left by two saves in a row are those of the second save
    alone: the ledger holds what was saved last and no temporary file
    stays behind. *)
Theorem ledger_last_save_wins fs chat_folder ids1 meta1 ids2 meta2 :
  (fs1 ← save_downloaded_set fs chat_folder ids1 meta1;
   save_downloaded_set fs1 chat_folder ids2 meta2)
  = save_downloaded_set fs chat_folder ids2 meta2
  /\ exists fs2,
       save_downloaded_set fs chat_folder ids2 meta2 = Some fs2
       /\ fs2 !! temp_log_path chat_folder = None.
Proof.
  pose proof (temp_log_path_fresh chat_folder) as Hfresh.
  rewrite !save_downloaded_set_files. split.
  - simpl. rewrite save_downloaded_set_files. f_equal.
    apply map_eq. intros p.
    destruct (decide (p = per_chat_log_path chat_folder)) as [->|Hlog].
    { by rewrite !lookup_insert_eq. }
    rewrite !lookup_insert_ne by done.
    destruct (decide (p = temp_log_path chat_folder)) as [->|Htemp].
    { by rewrite !lookup_delete_eq. }
    rewrite !lookup_delete_ne by done. rewrite lookup_insert_ne by done.
    by rewrite lookup_delete_ne.
  - eexists. split; [done|].
    rewrite lookup_insert_ne by done. apply lookup_delete_eq.
Qed.

(** X3: a ledger object is read by content, not by form: when its
    [downloaded_ids] member (the empty array if the object has no such
    member) is an array of integers in any order and with repetitions, the
    loaded set is the set of those integers. *)
Theorem ledger_loads_any_integer_array `{!PyBuiltins} fs chat_folder members ids :
  dict_get members "downloaded_ids" (JArr []) = JArr (JInt <$> ids) ->
  load_downloaded_set
    (<[per_chat_log_path chat_folder := JsonText (JObj members)]> fs) chat_folder
  = list_to_set ids.
Proof.
  intros Hmember. rewrite load_downloaded_set_insert.
  unfold read_downloaded_ids. simpl. rewrite Hmember. simpl.
  by rewrite mapM_py_int_JInt.
Qed.

(** ** Accounting of a pass *)

Lemma count_events_app p tr1 tr2 :
  count_events p (tr1 ++ tr2) = (count_events p tr1 + count_events p tr2)%nat.
Proof. unfold count_events. by rewrite List.filter_app, length_app. Qed.

(** The balance of one iteration: it advances progress or sleeps, exactly
    one of the two; what it adds to the counters and its error print make
    up its advance; it fetches at most once, and a fetch ends as a
    completion, an error print or a sleep. *)
Lemma process_message_counts client chat_folder msg st :
  exists st' evs,
    process_message client chat_folder msg st = (Ok tt, st')
    /\ trace st' = trace st ++ evs
    /\ (count_events is_advance evs + count_events is_sleep evs = 1)%nat
    /\ (completed st' + skipped st' + count_events is_error_print evs
        = completed st + skipped st + count_events is_advance evs)%nat
    /\ (fetches st' = fetches st + count_events is_fetch evs)%nat
    /\ (completed st' + count_events is_error_print evs + count_events is_sleep evs
        = completed st + count_events is_fetch evs)%nat.
Proof.
  destruct (decide (msg_id msg ∈ downloaded_ids st)) as [Hin|Hin].
  { eexists _, [EvAdvance]. split; [by apply process_message_known|].
    simpl. split_and!; try done; unfold count_events; simpl; lia. }
  destruct (files st !! out_path_of chat_folder msg) as [c|] eqn:Hfile.
  { eexists _, _. split; [apply process_message_present; by eauto|].
    simpl. split; [done|]. unfold mkdir_events, count_events.
    destruct (truthy_int (grouped_id msg)); simpl; lia. }
  destruct (download_media client (fetches st) msg (out_path_of chat_folder msg))
    as [data|seconds|e] eqn:Hfetch.
  - eexists _, _. split; [by apply process_message_fetched|].
    simpl. split; [done|]. unfold mkdir_events, count_events.
    destruct (truthy_int (grouped_id msg)); simpl; lia.
  - eexists _, _. split; [by apply process_message_rate_limited|].
    simpl. split; [done|]. unfold mkdir_events, count_events.
    destruct (truthy_int (grouped_id msg)); simpl; lia.
  - eexists _, _. split; [by apply process_message_failed|].
    simpl. split; [done|]. unfold mkdir_events, count_events.
    destruct (truthy_int (grouped_id msg)); simpl; lia.
Qed.

Lemma run_counts client chat_folder messages : forall st,
  exists evs,
    trace (run client chat_folder messages st) = trace st ++ evs
    /\ (count_events is_advance evs + count_events is_sleep evs
        = length messages)%nat
    /\ (completed (run client chat_folder messages st)
        + skipped (run client chat_folder messages st)
        + count_events is_error_print evs
        = completed st + skipped st + count_events is_advance evs)%nat
    /\ (fetches (run client chat_folder messages st)
        = fetches st + count_events is_fetch evs)%nat
    /\ (completed (run client chat_folder messages st)
        + count_events is_error_print evs + count_events is_sleep evs
        = completed st + count_events is_fetch evs)%nat.
Proof.
  induction messages as [|msg rest IH]; intros st.
  { exists []. rewrite run_nil, app_nil_r. unfold count_events. simpl.
    split_and!; try done; lia. }
  rewrite run_cons.
  destruct (process_message_counts client chat_folder msg st)
    as (st1 & evs1 & -> & Htr1 & Ha1 & Hb1 & Hc1 & Hd1).
  simpl. destruct (IH st1) as (evs2 & Htr2 & Ha2 & Hb2 & Hc2 & Hd2).
  exists (evs1 ++ evs2). rewrite !count_events_app.
  split; [by rewrite Htr2, Htr1, app_assoc|].
  simpl. lia.
Qed.

(** X4: in every pass each message either advances the progress bar or
    costs one rate-limit sleep, so the bar reaches its total exactly when
    no rate limit was hit; and the advances are the completed, the skipped
    and the messages whose error was printed. *)
Theorem pass_progress_accounting `{!PyBuiltins} client chat messages chat_folder fs :
  let result := download_messages client chat messages chat_folder fs in
  let tr := trace result.2 in
  result.1 = Ok (completed result.2, skipped result.2)
  /\ (count_events is_advance tr + count_events is_sleep tr = length messages)%nat
  /\ (count_events is_advance tr
      = completed result.2 + skipped result.2 + count_events is_error_print tr)%nat.
Proof.
  intros result tr. subst tr result. rewrite download_messages_eq. simpl.
  destruct (run_counts client chat_folder messages (initial_state fs chat_folder))
    as (evs & Htr & Ha & Hb & _).
  rewrite Htr. simpl in *. split_and!; [done|lia|lia].
Qed.


(** ** What a pass leaves behind *)


Lemma run_ledger_upper client chat_folder messages : forall st,
  downloaded_ids (run client chat_folder messages st)
  ⊆ list_to_set (msg_id <$> messages) ∪ downloaded_ids st.
Proof.
  induction messages as [|msg rest IH]; intros st.
  { rewrite run_nil. set_solver. }
  rewrite run_cons.
  destruct (process_message_effect client chat_folder msg st)
    as (st1 & evs1 & -> & _ & _ & Hupper & _).
  simpl. specialize (IH st1). set_solver.
Qed.



(** X6: after any pass, and whatever the ledger file held before it, the
    ledger file loads as exactly the set the pass ended with; that set
    contains every id loaded at the start and, beyond those, only ids of
    messages of the list. *)
Theorem pass_ledger_bounds `{!PyBuiltins} client chat messages chat_folder fs :
  let final := (download_messages client chat messages chat_folder fs).2 in
  load_downloaded_set (files final) chat_folder = downloaded_ids final
  /\ load_downloaded_set fs chat_folder ⊆ downloaded_ids final
  /\ downloaded_ids final
     ⊆ list_to_set (msg_id <$> messages) ∪ load_downloaded_set fs chat_folder.
Proof.
  intros final. subst final. rewrite download_messages_eq. simpl.
  split_and!.
  - apply load_saved_ledger.
  - by destruct (run_effect client chat_folder messages
                   (initial_state fs chat_folder)) as (_ & _ & Hlower & _).
  - apply (run_ledger_upper client chat_folder messages
             (initial_state fs chat_folder)).
Qed.



(** ** From one pass to the next *)

(** X9: an id in the set a pass ends with is never fetched by the next pass
    on the files it left, whatever messages and transport that pass has. *)
Theorem next_pass_never_refetches `{!PyBuiltins} client client' chat
    messages messages' chat_folder fs m :
  let first := download_messages client chat messages chat_folder fs in
  let second :=
    download_messages client' chat messages' chat_folder (files first.2) in
  m ∈ downloaded_ids first.2 ->
  forall path, EvFetch m path ∉ trace second.2.
Proof.
  intros first second Hm path Hev. subst second.
  rewrite download_messages_eq in Hev. simpl in Hev.
  destruct (run_effect client' chat_folder messages'
              (initial_state (files first.2) chat_folder))
    as (evs & Htrace & _ & _ & Hfetch & _).
  rewrite Htrace in Hev. simpl in Hev.
  apply Hfetch in Hev as [Hnot _]. apply Hnot. simpl.
  subst first. rewrite download_messages_eq in Hm |- *. simpl in Hm |- *.
  by rewrite load_saved_ledger.
Qed.




(** ** Album folders and destination paths *)





(** ** More on the scan collector and the classifier *)

Lemma elem_of_collect_media_messages client chat media_type limit order msg :
  msg ∈ collect_media_messages client chat media_type limit order <->
  Some msg ∈ iter_messages client chat limit
  /\ is_Some (media msg)
  /\ matches_media_type media_type msg = true.
Proof.
  rewrite collect_media_messages_matching. simpl.
  rewrite <- elem_of_matching_messages.
  case_decide; [|done].
  by rewrite !list_elem_of_In, <- in_rev.
Qed.

(** X13: what the collector returns for ["both"] is what it returns for
    ["photos"] together with what it returns for ["videos"]: a message is
    collected for ["both"] exactly when it is collected for one of the
    two. *)
Theorem both_collects_photos_and_videos client chat limit order msg :
  msg ∈ collect_media_messages client chat "both" limit order <->
  msg ∈ collect_media_messages client chat "photos" limit order
  \/ msg ∈ collect_media_messages client chat "videos" limit order.
Proof.
  rewrite !elem_of_collect_media_messages. unfold matches_media_type. simpl.
  rewrite orb_true_iff. tauto.
Qed.

(** X14: the order only reverses the result: what any order other than
    ["oldest"] returns is the reverse of what ["oldest"] returns, so both
    hold the same messages and as many. *)
Theorem order_only_reverses client chat media_type limit order :
  order <> "oldest" ->
  collect_media_messages client chat media_type limit order
  = rev (collect_media_messages client chat media_type limit "oldest")
  /\ length (collect_media_messages client chat media_type limit order)
     = length (collect_media_messages client chat media_type limit "oldest").
Proof.
  intros Horder. rewrite !collect_media_messages_matching. cbv zeta.
  destruct (decide (order = "oldest")); [done|].
  destruct (decide ("oldest" = "oldest")); [|done].
  by rewrite rev_involutive, length_rev.
Qed.

Lemma filter_ids_NoDup (f : Message -> bool) (l : list Message) :
  NoDup (msg_id <$> l) -> NoDup (msg_id <$> List.filter f l).
Proof.
  induction l as [|msg l IH]; [done|].
  rewrite fmap_cons, NoDup_cons. intros [Hfresh Hnd]. simpl.
  destruct (f msg); [|by apply IH].
  rewrite fmap_cons, NoDup_cons. split; [|by apply IH].
  intros Hin. apply Hfresh.
  apply list_elem_of_fmap in Hin as (m & -> & Hm).
  apply list_elem_of_fmap_2.
  apply list_elem_of_In in Hm. apply filter_In in Hm as [Hm _].
  by apply list_elem_of_In.
Qed.

Lemma filter_length_le {A} (f : A -> bool) (l : list A) :
  (length (List.filter f l) <= length l)%nat.
Proof. induction l as [|x l IH]; simpl; [done|]. destruct (f x); simpl; lia. Qed.

Lemma omap_id_length_le {A} (l : list (option A)) :
  (length (omap id l) <= length l)%nat.
Proof. induction l as [|[x|] l IH]; csimpl; lia. Qed.

(** X15: whatever the media type string, every collected message was
    delivered, carries media and classifies as photo or video; the result
    is no longer than the delivery, and when the delivered ids are distinct
    so are the collected ones. *)
Theorem collected_messages_are_media client chat media_type limit order :
  let delivered := iter_messages client chat limit in
  let collected := collect_media_messages client chat media_type limit order in
  (forall msg, msg ∈ collected ->
     Some msg ∈ delivered /\ is_Some (media msg)
     /\ (is_photo_message (Some msg) = true \/ is_video_message (Some msg) = true))
  /\ (length collected <= length delivered)%nat
  /\ (NoDup (msg_id <$> omap id delivered) -> NoDup (msg_id <$> collected)).
Proof.
  intros delivered collected. subst delivered collected. split_and!.
  - intros msg Hmsg. apply elem_of_collect_media_messages in Hmsg
      as (Hin & Hmedia & Hmatch).
    split_and!; [done..|]. unfold matches_media_type in Hmatch.
    destruct (String.eqb media_type "photos"); [by left|].
    destruct (String.eqb media_type "videos"); [by right|].
    by apply orb_true_iff.
  - rewrite collect_media_messages_matching. simpl.
    assert (Hlen : (length (matching_messages (matches_media_type media_type)
                              (iter_messages client chat limit))
                    <= length (iter_messages client chat limit))%nat).
    { unfold matching_messages. etrans; [apply filter_length_le|].
      apply omap_id_length_le. }
    case_decide; [by rewrite length_rev|done].
  - intros Hnd. rewrite collect_media_messages_matching. simpl.
    assert (Hkept : NoDup (msg_id <$> matching_messages
                             (matches_media_type media_type)
                             (iter_messages client chat limit)))
      by (by apply filter_ids_NoDup).
    case_decide; [|done].
    rewrite fmap_rev_ids. apply NoDup_ListNoDup, List.NoDup_rev.
    by apply NoDup_ListNoDup.
Qed.

Lemma has_video_attribute_elem_of attrs :
  has_video_attribute attrs = true <-> DocumentAttributeVideo ∈ attrs.
Proof.
  induction attrs as [|attr rest IH]; simpl.
  { split; [done|by intros ?%elem_of_nil]. }
  rewrite elem_of_cons, <- IH.
  destruct attr; simpl; split; auto; intros [?|?]; done.
Qed.

(** X16: a message is a video exactly when its [video] attribute is set or
    its document lists a video attribute, and a photo exactly when its
    [photo] attribute is set or its media is a photo; a missing message is
    neither. *)
Theorem classifier_characterisation msg :
  (is_video_message (Some msg) = true <->
   video msg = true
   \/ exists doc attrs,
        document msg = Some doc /\ attributes doc = Some attrs
        /\ DocumentAttributeVideo ∈ attrs)
  /\ (is_photo_message (Some msg) = true <->
      photo msg = true \/ media msg = Some MessageMediaPhoto)
  /\ is_video_message None = false
  /\ is_photo_message None = false.
Proof.
  split_and!; [| |done..].
  - unfold is_video_message. destruct (video msg); [split; auto|].
    destruct (document msg) as [[attrs]|]; simpl.
    + rewrite has_video_attribute_elem_of. split.
      * intros Hin. right. destruct attrs as [attrs|]; simpl in Hin.
        -- eauto.
        -- by apply elem_of_nil in Hin.
      * intros [?|(doc & attrs' & Hdoc & Hattrs & Hin)]; [done|].
        simplify_eq. simpl in Hattrs. by rewrite Hattrs.
    + split; [done|]. intros [?|(doc & attrs' & Hdoc & Hattrs & Hin)]; done.
  - unfold is_photo_message, is_MessageMediaPhoto. rewrite orb_true_iff.
    destruct (media msg) as [[| |]|]; split; intros [?|?]; auto; done.
Qed.

(** ** Folder names *)


Lemma str_take_all n s : (String.length s <= n)%nat -> str_take n s = s.
Proof.
  revert s. induction n as [|n IH]; intros [|c s]; simpl; intros Hlen;
    try done; try lia.
  rewrite IH; [done|lia].
Qed.

Section all_chars_preserved.
Variable p : ascii -> bool.




Lemma all_chars_collapse_whitespace in_run s :
  p " "%char = true ->
  all_chars p s = true -> all_chars p (collapse_whitespace in_run s) = true.
Proof.
  intros Hspace. revert in_run. induction s as [|c s IH]; intros in_run; simpl;
    [done|].
  intros [Hc Hs]%andb_true_iff.
  destruct (py_isspace c); [destruct in_run|]; simpl;
    rewrite ?Hspace, ?Hc, IH; done.
Qed.

End all_chars_preserved.


Lemma replace_forbidden_id s :
  all_chars not_forbidden s = true -> replace_forbidden s = s.
Proof.
  induction s as [|c s IH]; simpl; [done|].
  intros [Hc Hs]%andb_true_iff. rewrite IH by done.
  unfold not_forbidden in Hc. apply negb_true_iff in Hc. by rewrite Hc.
Qed.


Lemma collapse_whitespace_id s : forall in_run,
  single_spaced in_run s = true -> collapse_whitespace in_run s = s.
Proof.
  induction s as [|c s IH]; intros in_run; simpl; [done|].
  destruct (py_isspace c).
  - intros [[Hc Hrun]%andb_true_iff Hs]%andb_true_iff.
    apply negb_true_iff in Hrun. subst in_run.
    apply Ascii.eqb_eq in Hc. subst c. by rewrite IH.
  - intros Hs. by rewrite IH.
Qed.







Lemma lstrip_id s : starts_with_space s = false -> lstrip s = s.
Proof. destruct s as [|c s]; simpl; [done|]. by intros ->. Qed.

Lemma rstrip_id s : ends_with_space s = false -> rstrip s = s.
Proof.
  induction s as [|c s IH]; [done|].
  destruct s as [|d s'].
  - simpl. by intros ->.
  - intros Hs. change (ends_with_space (String d s') = false) in Hs.
    cbn [rstrip]. cbn [rstrip] in IH. by rewrite IH.
Qed.



Lemma all_chars_impl (p q : ascii -> bool) s :
  (forall c, p c = true -> q c = true) ->
  all_chars p s = true -> all_chars q s = true.
Proof.
  intros Himpl. induction s as [|c s IH]; simpl; [done|].
  intros [Hc Hs]%andb_true_iff. by rewrite (Himpl c Hc), IH.
Qed.

Lemma all_chars_append p s1 s2 :
  all_chars p (s1 +:+ s2) = all_chars p s1 && all_chars p s2.
Proof.
  induction s1 as [|c s1 IH]; [done|].
  rewrite append_cons. simpl. by rewrite IH, andb_assoc.
Qed.

Lemma length_append s1 s2 :
  String.length (s1 +:+ s2) = (String.length s1 + String.length s2)%nat.
Proof.
  induction s1 as [|c s1 IH]; [done|].
  rewrite append_cons. simpl. by rewrite IH.
Qed.

Lemma lstrip_all_space s : all_chars py_isspace s = true -> lstrip s = "".
Proof.
  induction s as [|c s IH]; simpl; [done|].
  intros [Hc Hs]%andb_true_iff. rewrite Hc. by apply IH.
Qed.

Lemma sanitize_blank_name_is_empty_aux name :
  name <> "" ->
  all_chars is_blank name = true ->
  sanitize_for_fs name = "".
Proof.
  intros Hname Hblank.
  destruct name as [|c name]; [done|].
  unfold sanitize_for_fs, strip.
  rewrite replace_forbidden_id.
  2: { revert Hblank. apply all_chars_impl. unfold is_blank, not_forbidden.
       by intros a [_ ?]%andb_true_iff. }
  rewrite lstrip_all_space; [done|].
  apply all_chars_collapse_whitespace; [done|].
  revert Hblank. apply all_chars_impl. unfold is_blank.
  by intros a [? _]%andb_true_iff.
Qed.

(** X18: a non-empty name made only of whitespace that the sanitizer does
    not replace (spaces, for one) is sanitized to the empty string, not to
    the placeholder [chat] that the empty name gets. *)
Theorem sanitize_blank_name_is_empty name :
  name <> "" ->
  all_chars is_blank name = true ->
  sanitize_for_fs name = "" /\ sanitize_for_fs "" = "chat".
Proof.
  intros Hname Hblank. split; [|done].
  by apply sanitize_blank_name_is_empty_aux.
Qed.

Lemma sanitize_for_fs_id name :
  name <> "" ->
  (String.length name <= 80)%nat ->
  all_chars not_forbidden name = true ->
  single_spaced false name = true ->
  starts_with_space name = false ->
  ends_with_space name = false ->
  sanitize_for_fs name = name.
Proof.
  intros Hname Hlen Hclean Hspaced Hstart Hend.
  destruct name as [|c name]; [done|].
  unfold sanitize_for_fs, strip.
  rewrite replace_forbidden_id by done.
  rewrite collapse_whitespace_id by done.
  rewrite lstrip_id by done. rewrite rstrip_id by done.
  by apply str_take_all.
Qed.


(** ** Chat folders *)

Lemma single_spaced_plain s : forall b,
  all_chars is_plain s = true -> single_spaced b s = true.
Proof.
  induction s as [|c s IH]; intros b; simpl; [done|].
  intros [Hc Hs]%andb_true_iff. unfold is_plain in Hc.
  apply andb_true_iff in Hc as [Hc%negb_true_iff _]. rewrite Hc. by apply IH.
Qed.

Lemma ends_with_space_plain s :
  all_chars is_plain s = true -> ends_with_space s = false.
Proof.
  induction s as [|c s IH]; [done|].
  intros Hall. simpl in Hall. apply andb_true_iff in Hall as [Hc Hs].
  destruct s as [|d s'].
  - simpl. unfold is_plain in Hc.
    by apply andb_true_iff in Hc as [Hc%negb_true_iff _].
  - change (ends_with_space (String c (String d s')))
      with (ends_with_space (String d s')). by apply IH.
Qed.

Lemma sanitize_for_fs_plain s :
  s <> "" -> (String.length s <= 80)%nat -> all_chars is_plain s = true ->
  sanitize_for_fs s = s.
Proof.
  intros Hs Hlen Hplain. apply sanitize_for_fs_id; try done.
  - revert Hplain. apply all_chars_impl. unfold is_plain, not_forbidden.
    by intros c [_ ?]%andb_true_iff.
  - by apply single_spaced_plain.
  - destruct s as [|c s]; [done|]. simpl in *.
    apply andb_true_iff in Hplain as [Hc _]. unfold is_plain in Hc.
    by apply andb_true_iff in Hc as [Hc%negb_true_iff _].
  - by apply ends_with_space_plain.
Qed.

Lemma digit_or_minus_plain c : is_digit_or_minus c = true -> is_plain c = true.
Proof.
  destruct c as [[] [] [] [] [] [] [] []]; vm_compute; intros H;
    first [reflexivity | discriminate H].
Qed.


Lemma id_label_plain n :
  "id_" +:+ str_of_int n <> ""
  /\ "id_" +:+ str_of_int n <> "."
  /\ all_chars is_plain ("id_" +:+ str_of_int n) = true
  /\ String.length ("id_" +:+ str_of_int n) = (3 + String.length (str_of_int n))%nat.
Proof.
  split_and!; try done.
  rewrite all_chars_append. apply andb_true_iff. split; [done|].
  generalize (str_of_int_digits n). apply all_chars_impl, digit_or_minus_plain.
Qed.

(** X21: a chat without username and title gets the folder
    [downloads/id_<id>], so two such chats share a folder exactly when they
    share the id (for ids of at most 77 characters, beyond which the label
    is cut). *)
Theorem id_labelled_chat_folders chat1 chat2 n1 n2 :
  truthy_str (username chat1) = false -> truthy_str (title chat1) = false ->
  truthy_str (username chat2) = false -> truthy_str (title chat2) = false ->
  chat_id chat1 = Some n1 -> chat_id chat2 = Some n2 ->
  (String.length (str_of_int n1) <= 77)%nat ->
  (String.length (str_of_int n2) <= 77)%nat ->
  choose_chat_folder chat1 = Some (path_join BASE_DOWNLOADS ("id_" +:+ str_of_int n1))
  /\ (choose_chat_folder chat1 = choose_chat_folder chat2 <-> n1 = n2).
Proof.
  intros Hu1 Ht1 Hu2 Ht2 Hid1 Hid2 Hlen1 Hlen2.
  assert (Hfolder : forall chat n,
            truthy_str (username chat) = false -> truthy_str (title chat) = false ->
            chat_id chat = Some n -> (String.length (str_of_int n) <= 77)%nat ->
            choose_chat_folder chat
            = Some (path_join BASE_DOWNLOADS ("id_" +:+ str_of_int n))).
  { intros chat n Hu Ht Hid Hlen. unfold choose_chat_folder.
    rewrite Hu, Ht, Hid. cbn -[sanitize_for_fs path_div str_of_int String.append].
    destruct (id_label_plain n) as (Hne & Hdot & Hplain & Hlength).
    rewrite sanitize_for_fs_plain; [|done|lia|done].
    reflexivity. }
  rewrite !(Hfolder _ _) by done. split; [done|].
  split; [|by intros ->].
  intros Heq. apply (inj Some) in Heq. apply path_join_inj in Heq.
  apply (inj (String.app "id_")) in Heq. by apply (inj pretty) in Heq.
Qed.

(** X22: a chat with a username of plain characters (no whitespace, none of
    the replaced characters) and at most 79 of them gets the folder
    [downloads/@<username>] whatever its title and id are, so two such chats
    share a folder exactly when they share the username. *)
Theorem username_labelled_chat_folders chat1 chat2 u1 u2 :
  username chat1 = Some u1 -> username chat2 = Some u2 ->
  u1 <> "" -> u2 <> "" ->
  all_chars is_plain u1 = true -> all_chars is_plain u2 = true ->
  (String.length u1 <= 79)%nat -> (String.length u2 <= 79)%nat ->
  choose_chat_folder chat1 = Some (path_join BASE_DOWNLOADS ("@" +:+ u1))
  /\ (choose_chat_folder chat1 = choose_chat_folder chat2 <-> u1 = u2).
Proof.
  intros Hu1 Hu2 Hne1 Hne2 Hplain1 Hplain2 Hlen1 Hlen2.
  assert (Hfolder : forall chat u,
            username chat = Some u -> u <> "" -> all_chars is_plain u = true ->
            (String.length u <= 79)%nat ->
            choose_chat_folder chat = Some (path_join BASE_DOWNLOADS ("@" +:+ u))).
  { intros chat u Hu Hne Hplain Hlen. unfold choose_chat_folder. rewrite Hu.
    destruct u as [|c u]; [done|].
    cbn -[sanitize_for_fs path_div String.append].
    rewrite sanitize_for_fs_plain; [|done|simpl in *; lia|].
    - reflexivity.
    - change (all_chars is_plain (String "@" (String c u)) = true).
      simpl. simpl in Hplain. by rewrite Hplain. }
  rewrite !(Hfolder _ _) by done. split; [done|].
  split; [|by intros ->].
  intros Heq. apply (inj Some) in Heq. apply path_join_inj in Heq.
  by apply (inj (String.app "@")) in Heq.
Qed.

(** X23: a chat without username whose title is non-empty but made only of
    blanks gets the download root itself as its folder, because the
    sanitized label is empty. *)
Theorem blank_title_folder_is_download_root chat t :
  truthy_str (username chat) = false ->
  title chat = Some t -> t <> "" -> all_chars is_blank t = true ->
  choose_chat_folder chat = Some BASE_DOWNLOADS.
Proof.
  intros Hu Ht Hne Hblank.
  unfold choose_chat_folder. rewrite Hu, Ht.
  destruct t as [|c t]; [done|]. cbn -[sanitize_for_fs path_div].
  by rewrite (sanitize_blank_name_is_empty_aux (String c t) Hne Hblank).
Qed.

(** ** Credentials *)

Lemma load_config_save_config api_id api_hash fs :
  load_config (save_config api_id api_hash fs)
  = Some (JObj [ ("api_id", JInt api_id); ("api_hash", JStr api_hash) ]).
Proof. unfold load_config, save_config. by rewrite lookup_insert_eq. Qed.

(** X24: when the configuration file is missing or holds a falsy value, or
    when the operator confirms an update, the credentials used are the ones
    typed last, only the configuration file changes, and the next start
    uses the same credentials without the operator typing anything. *)
Theorem credentials_are_remembered fs cfg setup update :
  load_config fs = Some cfg ->
  py_truthy cfg = false \/ is_Some update ->
  let typed := default setup update in
  exists fs',
    main_credentials fs setup update
    = Some ((JInt typed.1, JStr typed.2), fs')
    /\ (forall p, p <> CONFIG_FILE -> fs' !! p = fs !! p)
    /\ (forall setup',
          main_credentials fs' setup' None
          = Some ((JInt typed.1, JStr typed.2), fs')).
Proof.
  intros Hload Hcase typed. subst typed.
  assert (Hreuse : forall api_id api_hash fs0 setup',
            main_credentials (save_config api_id api_hash fs0) setup' None
            = Some ((JInt api_id, JStr api_hash),
                    save_config api_id api_hash fs0)).
  { intros api_id api_hash fs0 setup'. unfold main_credentials.
    by rewrite load_config_save_config. }
  unfold main_credentials. rewrite Hload. simpl.
  destruct update as [[api_id api_hash]|]; simpl.
  - destruct (py_truthy cfg); simpl.
    + eexists. split; [done|]. split; [|by intros; apply Hreuse].
      intros p Hp. unfold save_config. by rewrite lookup_insert_ne.
    + eexists. split; [done|]. split; [|by intros; apply Hreuse].
      intros p Hp. unfold save_config. by rewrite !lookup_insert_ne.
  - destruct Hcase as [Hfalsy|[? ?]]; [|done]. rewrite Hfalsy. simpl.
    destruct setup as [api_id api_hash]. simpl.
    eexists. split; [done|]. split; [|by intros; apply Hreuse].
    intros p Hp. unfold save_config. by rewrite lookup_insert_ne.
Qed.

(** X25: a configuration file that is not JSON stops [main] before the
    operator is asked anything, whatever they would have typed; and a
    truthy configuration without the member [api_id] or [api_hash] stops it
    when no update is confirmed. Nothing is tolerated here as it is for the
    ledger. *)
Theorem bad_config_aborts fs cfg bytes setup update :
  load_config fs = Some cfg ->
  py_truthy cfg = true ->
  py_getitem cfg "api_id" = None \/ py_getitem cfg "api_hash" = None ->
  main_credentials fs setup None = None
  /\ main_credentials (<[CONFIG_FILE := Blob bytes]> fs) setup update = None.
Proof.
  intros Hload Htruthy Hmissing. split.
  - unfold main_credentials. rewrite Hload. simpl. rewrite Htruthy. simpl.
    destruct Hmissing as [-> | Hhash]; [done|].
    destruct (py_getitem cfg "api_id"); simpl; [by rewrite Hhash|done].
  - unfold main_credentials, load_config. by rewrite lookup_insert_eq.
Qed.

(** ** Chat queries *)

Lemma strip_prefix_Some prefix : forall s rest,
  strip_prefix prefix s = Some rest <-> s = prefix +:+ rest.
Proof.
  induction prefix as [|a prefix IH]; intros s rest.
  { simpl. split; [by intros [= ->]|by intros ->]. }
  rewrite append_cons. destruct s as [|b s]; simpl; [done|].
  destruct (Ascii.eqb_spec a b) as [->|Hab].
  - rewrite IH. split; [by intros ->|by intros [= ->]].
  - split; [done|]. intros [= Hba _]. by symmetry in Hba.
Qed.

Lemma str_contains_true needle : forall hay,
  str_contains needle hay = true <->
  exists before after, hay = before +:+ needle +:+ after.
Proof.
  induction hay as [|c hay IH]; simpl.
  - destruct (strip_prefix needle "") as [rest|] eqn:Hstrip.
    + apply strip_prefix_Some in Hstrip. split; [|done].
      intros _. exists "", rest. done.
    + split; [done|]. intros (before & after & Heq).
      destruct before; [|by rewrite append_cons in Heq].
      change ("" = needle +:+ after) in Heq.
      apply strip_prefix_Some in Heq. congruence.
  - destruct (strip_prefix needle (String c hay)) as [rest|] eqn:Hstrip.
    + apply strip_prefix_Some in Hstrip. split; [|done].
      intros _. exists "", rest. done.
    + rewrite IH. split.
      * intros (before & after & ->). exists (String c before), after.
        by rewrite append_cons.
      * intros (before & after & Heq). destruct before as [|b before].
        -- change (String c hay = needle +:+ after) in Heq.
           apply strip_prefix_Some in Heq. congruence.
        -- rewrite append_cons in Heq. injection Heq as -> ->. eauto.
Qed.

Lemma split_once_Some sep : forall s before after,
  split_once sep s = Some (before, after) -> s = before +:+ sep +:+ after.
Proof.
  induction s as [|c s IH]; intros before after; simpl.
  - destruct (strip_prefix sep "") as [rest|] eqn:Hstrip; [|done].
    intros [= <- <-]. by apply strip_prefix_Some in Hstrip.
  - destruct (strip_prefix sep (String c s)) as [rest|] eqn:Hstrip.
    + intros [= <- <-]. by apply strip_prefix_Some in Hstrip.
    + destruct (split_once sep s) as [[b a]|]; [|done].
      intros [= <- <-]. rewrite append_cons. f_equal. by apply IH.
Qed.

Lemma split_once_is_Some sep : forall s,
  str_contains sep s = true -> is_Some (split_once sep s).
Proof.
  induction s as [|c s IH]; simpl.
  - destruct (strip_prefix sep ""); [eauto|done].
  - destruct (strip_prefix sep (String c s)); [eauto|].
    intros Hin. destruct (IH Hin) as [[b a] ->]. eauto.
Qed.

(** X26: reading the chat query never fails: a query that holds [t.me/+]
    holds a [+], and one that holds [t.me/joinchat/] holds [joinchat/], so
    the second part of the split is always there. The invite hash is what
    follows such a separator in the query; a query with neither marker is
    looked up unchanged. *)
Theorem chat_query_always_parses chat_query :
  exists parsed,
    parse_chat_query chat_query = Some parsed
    /\ match parsed with
       | ImportChatInvite invite_hash =>
           exists before,
             chat_query = before +:+ "+" +:+ invite_hash
             \/ chat_query = before +:+ "joinchat/" +:+ invite_hash
       | GetEntity query =>
           query = chat_query
           /\ str_contains "t.me/+" chat_query = false
           /\ str_contains "t.me/joinchat/" chat_query = false
       end.
Proof.
  unfold parse_chat_query.
  destruct (str_contains "t.me/+" chat_query) eqn:Hplus.
  - apply str_contains_true in Hplus as (before & after & Hq).
    destruct (split_once_is_Some "+" chat_query) as [[b a] Hsplit].
    { apply str_contains_true. exists (before +:+ "t.me/"), after.
      by rewrite Hq, !append_assoc. }
    rewrite Hsplit. simpl. eexists. split; [done|].
    exists b. left. by apply split_once_Some.
  - destruct (str_contains "t.me/joinchat/" chat_query) eqn:Hjoin.
    + apply str_contains_true in Hjoin as (before & after & Hq).
      destruct (split_once_is_Some "joinchat/" chat_query) as [[b a] Hsplit].
      { apply str_contains_true. exists (before +:+ "t.me/"), after.
        by rewrite Hq, !append_assoc. }
      rewrite Hsplit. simpl. eexists. split; [done|].
      exists b. right. by apply split_once_Some.
    + eexists. split; [done|]. done.
Qed.

Lemma split_once_char c before after :
  has_char c before = false ->
  split_once (String c "") (before +:+ String c after) = Some (before, after).
Proof.
  induction before as [|a before IH]; intros Hfree.
  - change ("" +:+ String c after) with (String c after).
    cbn [split_once strip_prefix]. by rewrite Ascii.eqb_refl.
  - cbn [has_char] in Hfree. apply orb_false_iff in Hfree as [Ha Hrest].
    rewrite append_cons. cbn [split_once strip_prefix].
    rewrite Ascii.eqb_sym, Ha. by rewrite IH.
Qed.

(** X27: for a query made of a part without [+], then [t.me/+], then the
    rest, the program joins with exactly that rest as invite hash. *)
Theorem plus_invite_link_hash before invite_hash :
  has_char "+" before = false ->
  parse_chat_query (before +:+ "t.me/+" +:+ invite_hash)
  = Some (ImportChatInvite invite_hash).
Proof.
  intros Hplus. unfold parse_chat_query.
  assert (Hin : str_contains "t.me/+" (before +:+ "t.me/+" +:+ invite_hash) = true).
  { apply str_contains_true. eauto. }
  rewrite Hin.
  assert (Hfree : has_char "+" (before +:+ "t.me/") = false).
  { clear Hin. induction before as [|a before IH]; [done|].
    cbn [has_char] in Hplus. apply orb_false_iff in Hplus as [Ha Hrest].
    rewrite append_cons. cbn [has_char]. by rewrite Ha, IH. }
  assert (Hsplit : split_once "+" (before +:+ "t.me/+" +:+ invite_hash)
                   = Some (before +:+ "t.me/", invite_hash)).
  { rewrite <- (split_once_char "+" (before +:+ "t.me/") invite_hash Hfree).
    by rewrite append_assoc. }
  by rewrite Hsplit.
Qed.

Lemma append_prefix_split prefix : forall x y rest,
  x +:+ y = prefix +:+ rest ->
  (String.length prefix <= String.length x)%nat ->
  exists rest', x = prefix +:+ rest'.
Proof.
  induction prefix as [|a prefix IH]; intros x y rest Heq Hlen.
  { exists x. done. }
  destruct x as [|b x]; [simpl in Hlen; lia|].
  rewrite !append_cons in Heq. injection Heq as -> Heq.
  destruct (IH x y rest Heq) as [rest' ->]; [simpl in Hlen; lia|].
  exists rest'. by rewrite append_cons.
Qed.

(** The split is at the first separator: nothing before it may complete
    one, not even together with the separator's own beginning. *)
Lemma split_once_leftmost init last before after :
  let sep := init +:+ String last "" in
  str_contains sep (before +:+ init) = false ->
  split_once sep (before +:+ sep +:+ after) = Some (before, after).
Proof.
  intros sep. induction before as [|c before IH]; intros Hfree.
  - change ("" +:+ sep +:+ after) with (sep +:+ after).
    pose proof (proj2 (strip_prefix_Some sep (sep +:+ after) after) eq_refl)
      as Hstrip.
    destruct (sep +:+ after); cbn [split_once]; by rewrite Hstrip.
  - rewrite append_cons in Hfree |- *. cbn [str_contains] in Hfree.
    cbn [split_once].
    destruct (strip_prefix sep (String c (before +:+ init))) eqn:Hhead; [done|].
    destruct (strip_prefix sep (String c (before +:+ sep +:+ after)))
      as [rest|] eqn:Hstrip.
    + exfalso. apply strip_prefix_Some in Hstrip.
      destruct (append_prefix_split sep (String c (before +:+ init))
                  (String last after) rest) as [rest' Hrest].
      * rewrite <- Hstrip. subst sep. rewrite !append_cons, !append_assoc.
        by rewrite append_cons.
      * subst sep. rewrite !length_append. simpl. rewrite length_append. lia.
      * apply strip_prefix_Some in Hrest. congruence.
    + by rewrite IH.
Qed.

(** X28: for a query without [t.me/+] made of a part, then
    [t.me/joinchat/], then the rest, where no [joinchat/] is completed
    before that one, the program joins with exactly that rest as invite
    hash. *)
Theorem joinchat_invite_link_hash before invite_hash :
  str_contains "t.me/+" (before +:+ "t.me/joinchat/" +:+ invite_hash) = false ->
  str_contains "joinchat/" (before +:+ "t.me/joinchat") = false ->
  parse_chat_query (before +:+ "t.me/joinchat/" +:+ invite_hash)
  = Some (ImportChatInvite invite_hash).
Proof.
  intros Hplus Hfirst. unfold parse_chat_query. rewrite Hplus.
  assert (Hin : str_contains "t.me/joinchat/"
                  (before +:+ "t.me/joinchat/" +:+ invite_hash) = true).
  { apply str_contains_true. eauto. }
  rewrite Hin.
  assert (Hsplit : split_once "joinchat/"
                     (before +:+ "t.me/joinchat/" +:+ invite_hash)
                   = Some (before +:+ "t.me/", invite_hash)).
  { rewrite <- (split_once_leftmost "joinchat" "/" (before +:+ "t.me/") invite_hash).
    - by rewrite !append_assoc.
    - by rewrite append_assoc. }
  by rewrite Hsplit.
Qed.

(** ** The further properties at sample inputs *)

Lemma ledger_loads_any_integer_array_witness :
  let members := [ ("chat_name", JStr "Holiday");
                   ("downloaded_ids", JArr (JInt <$> [9; 3; 9; 1])) ] in
  dict_get members "downloaded_ids" (JArr []) = JArr (JInt <$> [9; 3; 9; 1])
  /\ @load_downloaded_set strict_builtins
       (<[per_chat_log_path sample_folder := JsonText (JObj members)]> ∅)
       sample_folder
     = list_to_set [9; 3; 9; 1].
Proof.
  intros members.
  assert (Hmember : dict_get members "downloaded_ids" (JArr [])
                    = JArr (JInt <$> [9; 3; 9; 1])) by reflexivity.
  split; [exact Hmember|].
  exact (@ledger_loads_any_integer_array strict_builtins ∅ sample_folder
           members [9; 3; 9; 1] Hmember).
Defined.


Lemma next_pass_never_refetches_witness :
  let messages := [photo_message 7 None None] in
  let client := scripted_client [] always_ok in
  let first := @download_messages strict_builtins client sample_chat messages
                 sample_folder ∅ in
  let second := @download_messages strict_builtins client sample_chat messages
                  sample_folder (files first.2) in
  7 ∈ downloaded_ids first.2
  /\ forall path, EvFetch 7 path ∉ trace second.2.
Proof.
  intros messages client first second.
  assert (Hin : 7 ∈ downloaded_ids first.2) by (vm_compute; reflexivity).
  split; [exact Hin|].
  exact (@next_pass_never_refetches strict_builtins client client sample_chat
           messages messages sample_folder ∅ 7 Hin).
Defined.




Lemma order_only_reverses_witness :
  let delivered := [Some (photo_message 5 None None);
                    Some (photo_message 3 None None)] in
  let client := scripted_client delivered always_ok in
  "newest" <> "oldest"
  /\ (collect_media_messages client sample_chat "both" 500 "newest"
      = rev (collect_media_messages client sample_chat "both" 500 "oldest")
      /\ length (collect_media_messages client sample_chat "both" 500 "newest")
         = length (collect_media_messages client sample_chat "both" 500 "oldest")).
Proof.
  intros delivered client.
  assert (Horder : "newest" <> "oldest") by discriminate.
  split; [exact Horder|].
  exact (order_only_reverses client sample_chat "both" 500 "newest" Horder).
Defined.

Lemma sanitize_blank_name_is_empty_witness :
  "   " <> ""
  /\ all_chars is_blank "   " = true
  /\ (sanitize_for_fs "   " = "" /\ sanitize_for_fs "" = "chat").
Proof.
  assert (Hne : "   " <> "") by discriminate.
  assert (Hblank : all_chars is_blank "   " = true) by reflexivity.
  split; [exact Hne|]. split; [exact Hblank|].
  exact (sanitize_blank_name_is_empty "   " Hne Hblank).
Defined.


Lemma id_labelled_chat_folders_witness :
  let chat1 := chat_by_id (-1001234567890) in
  let chat2 := chat_by_id 5 in
  truthy_str (username chat1) = false /\ truthy_str (title chat1) = false
  /\ truthy_str (username chat2) = false /\ truthy_str (title chat2) = false
  /\ chat_id chat1 = Some (-1001234567890) /\ chat_id chat2 = Some 5
  /\ (String.length (str_of_int (-1001234567890)) <= 77)%nat
  /\ (String.length (str_of_int 5) <= 77)%nat
  /\ choose_chat_folder chat1
     = Some (path_join BASE_DOWNLOADS ("id_" +:+ str_of_int (-1001234567890)))
  /\ (choose_chat_folder chat1 = choose_chat_folder chat2 <-> -1001234567890 = 5).
Proof.
  intros chat1 chat2.
  assert (Hlen1 : (String.length (str_of_int (-1001234567890)) <= 77)%nat)
    by (vm_compute; lia).
  assert (Hlen2 : (String.length (str_of_int 5) <= 77)%nat) by (vm_compute; lia).
  repeat (split; [reflexivity|]).
  split; [exact Hlen1|]. split; [exact Hlen2|].
  exact (id_labelled_chat_folders chat1 chat2 (-1001234567890) 5
           eq_refl eq_refl eq_refl eq_refl eq_refl eq_refl Hlen1 Hlen2).
Defined.

Lemma username_labelled_chat_folders_witness :
  let chat1 := chat_by_username "holiday_pics" in
  let chat2 := chat_by_username "other" in
  username chat1 = Some "holiday_pics" /\ username chat2 = Some "other"
  /\ "holiday_pics" <> "" /\ "other" <> ""
  /\ all_chars is_plain "holiday_pics" = true
  /\ all_chars is_plain "other" = true
  /\ (String.length "holiday_pics" <= 79)%nat
  /\ (String.length "other" <= 79)%nat
  /\ choose_chat_folder chat1
     = Some (path_join BASE_DOWNLOADS ("@" +:+ "holiday_pics"))
  /\ (choose_chat_folder chat1 = choose_chat_folder chat2
      <-> "holiday_pics" = "other").
Proof.
  intros chat1 chat2.
  assert (Hne1 : "holiday_pics" <> "") by discriminate.
  assert (Hne2 : "other" <> "") by discriminate.
  assert (Hlen1 : (String.length "holiday_pics" <= 79)%nat) by (vm_compute; lia).
  assert (Hlen2 : (String.length "other" <= 79)%nat) by (vm_compute; lia).
  split; [reflexivity|]. split; [reflexivity|].
  split; [exact Hne1|]. split; [exact Hne2|].
  split; [reflexivity|]. split; [reflexivity|].
  split; [exact Hlen1|]. split; [exact Hlen2|].
  exact (username_labelled_chat_folders chat1 chat2 "holiday_pics" "other"
           eq_refl eq_refl Hne1 Hne2 eq_refl eq_refl Hlen1 Hlen2).
Defined.

Lemma blank_title_folder_is_download_root_witness :
  truthy_str (username chat_with_blank_title) = false
  /\ title chat_with_blank_title = Some "  "
  /\ "  " <> ""
  /\ all_chars is_blank "  " = true
  /\ choose_chat_folder chat_with_blank_title = Some BASE_DOWNLOADS.
Proof.
  assert (Hne : "  " <> "") by discriminate.
  split; [reflexivity|]. split; [reflexivity|]. split; [exact Hne|].
  split; [reflexivity|].
  exact (blank_title_folder_is_download_root chat_with_blank_title "  "
           eq_refl eq_refl Hne eq_refl).
Defined.

Lemma credentials_are_remembered_witness :
  load_config ∅ = Some (JObj [])
  /\ (py_truthy (JObj []) = false \/ is_Some (None : option (Z * string)))
  /\ exists fs',
       main_credentials ∅ (12345, "0123abcd") None
       = Some ((JInt 12345, JStr "0123abcd"), fs')
       /\ (forall p, p <> CONFIG_FILE -> fs' !! p = (∅ : FileSystem) !! p)
       /\ (forall setup',
             main_credentials fs' setup' None
             = Some ((JInt 12345, JStr "0123abcd"), fs')).
Proof.
  assert (Hload : load_config ∅ = Some (JObj [])) by reflexivity.
  assert (Hcase : py_truthy (JObj []) = false
                  \/ is_Some (None : option (Z * string))) by (left; reflexivity).
  split; [exact Hload|]. split; [exact Hcase|].
  exact (credentials_are_remembered ∅ (JObj []) (12345, "0123abcd") None
           Hload Hcase).
Defined.

Lemma bad_config_aborts_witness :
  let cfg := JObj [ ("api_id", JInt 1) ] in
  load_config fs_with_partial_config = Some cfg
  /\ py_truthy cfg = true
  /\ (py_getitem cfg "api_id" = None \/ py_getitem cfg "api_hash" = None)
  /\ (main_credentials fs_with_partial_config (12345, "0123abcd") None = None
      /\ main_credentials (<[CONFIG_FILE := Blob "{"]> fs_with_partial_config)
           (12345, "0123abcd") (Some (6, "ff")) = None).
Proof.
  intros cfg.
  assert (Hload : load_config fs_with_partial_config = Some cfg) by reflexivity.
  assert (Htruthy : py_truthy cfg = true) by reflexivity.
  assert (Hmissing : py_getitem cfg "api_id" = None
                     \/ py_getitem cfg "api_hash" = None) by (right; reflexivity).
  split; [exact Hload|]. split; [exact Htruthy|]. split; [exact Hmissing|].
  exact (bad_config_aborts fs_with_partial_config cfg "{" (12345, "0123abcd")
           (Some (6, "ff")) Hload Htruthy Hmissing).
Defined.

Lemma plus_invite_link_hash_witness :
  has_char "+" "https://" = false
  /\ parse_chat_query ("https://" +:+ "t.me/+" +:+ "AbCdEf")
     = Some (ImportChatInvite "AbCdEf").
Proof.
  assert (Hfree : has_char "+" "https://" = false) by reflexivity.
  split; [exact Hfree|].
  exact (plus_invite_link_hash "https://" "AbCdEf" Hfree).
Defined.

Lemma joinchat_invite_link_hash_witness :
  str_contains "t.me/+" ("https://" +:+ "t.me/joinchat/" +:+ "AbCdEf") = false
  /\ str_contains "joinchat/" ("https://" +:+ "t.me/joinchat") = false
  /\ parse_chat_query ("https://" +:+ "t.me/joinchat/" +:+ "AbCdEf")
     = Some (ImportChatInvite "AbCdEf").
Proof.
  assert (Hplus : str_contains "t.me/+"
                    ("https://" +:+ "t.me/joinchat/" +:+ "AbCdEf") = false)
    by reflexivity.
  assert (Hfirst : str_contains "joinchat/" ("https://" +:+ "t.me/joinchat")
                   = false) by reflexivity.
  split; [exact Hplus|]. split; [exact Hfirst|].
  exact (joinchat_invite_link_hash "https://" "AbCdEf" Hplus Hfirst).
Defined.
